(** * investControlFront: the investments page (list, filter, paginate, delete)

    A shallow embedding of the React component [InvestmentsPage]: its six
    state cells, the values derived from them on every render, its event
    handlers and the two asynchronous functions [fetchInvestments] and
    [handleDelete], split at their [await] into the part that issues the
    request and the part that runs when the request settles. *)

From Stdlib Require Import Ascii String.
From Stdlib Require Import DecimalString DecimalZ DecimalPos.
From Stdlib Require Import ZArith NArith QArith Qround List Bool Lia.
Import ListNotations.
Open Scope Z_scope.

(** ** The JavaScript built-ins the component uses *)

Module JS.

(** A JavaScript string is a sequence of UTF-16 code units. *)
Definition codeunit := N.
Definition jsstring := list codeunit.

(** String literals of the source (all ASCII), one code unit per character. *)
Fixpoint str (s : string) : jsstring :=
  match s with
  | EmptyString => []
  | String c r => N_of_ascii c :: str r
  end.

Definition codeunit_eqb : codeunit -> codeunit -> bool := N.eqb.

(** [a === b] on strings. *)
Fixpoint string_eqb (a b : jsstring) : bool :=
  match a, b with
  | [], [] => true
  | x :: a', y :: b' => codeunit_eqb x y && string_eqb a' b'
  | _, _ => false
  end.

(** Truthiness of a string: only the empty string is falsy. *)
Definition truthy (s : jsstring) : bool :=
  match s with [] => false | _ :: _ => true end.

(** Truthiness of a [string | null]. *)
Definition truthy_opt (s : option jsstring) : bool :=
  match s with None => false | Some v => truthy v end.

Fixpoint startsWith (s t : jsstring) {struct t} : bool :=
  match t with
  | [] => true
  | y :: t' =>
      match s with
      | [] => false
      | x :: s' => codeunit_eqb x y && startsWith s' t'
      end
  end.

(** [s.includes(t)]: [t] occurs in [s] at some position, searched from 0. *)
Fixpoint includes (s t : jsstring) : bool :=
  startsWith s t ||
  match s with
  | [] => false
  | _ :: s' => includes s' t
  end.

(** [l.slice(start, end)] of Array.prototype: a negative bound counts from
    the end, both bounds are clipped to the length, and the result is
    empty when the clipped end does not exceed the clipped start. *)
Definition slice {A : Type} (l : list A) (start end_ : Z) : list A :=
  let len := Z.of_nat (List.length l) in
  let k := if start <? 0 then Z.max (len + start) 0 else Z.min start len in
  let final := if end_ <? 0 then Z.max (len + end_) 0 else Z.min end_ len in
  firstn (Z.to_nat (final - k)) (skipn (Z.to_nat k) l).

(** [Math.ceil(a / b)] for integers [a] and [b]: the quotient is taken in
    the rationals.  (For an array length [a] and [b = 5] the double
    quotient of the source rounds to the same integer.) *)
Definition Math_ceil_div (a b : Z) : Z := Qceiling (inject_Z a / inject_Z b).

Definition Math_max (a b : Z) : Z := Z.max a b.
Definition Math_min (a b : Z) : Z := Z.min a b.

(** [String.prototype.toLowerCase] restricted to code units below 256,
    where it is a map over code units: A-Z and U+00C0-U+00DE (except the
    multiplication sign U+00D7) move up by 32.  Other code units are
    left as they are, so this instance agrees with the built-in on
    Latin-1 strings only; the development is parametric in the
    lower-casing function and uses this one for concrete runs. *)
Definition lower_unit (c : codeunit) : codeunit :=
  (if ((65 <=? c) && (c <=? 90)) ||
      ((192 <=? c) && (c <=? 222) && negb (c =? 215))
   then c + 32 else c)%N.

Definition toLowerCaseLatin1 (s : jsstring) : jsstring := map lower_unit s.

End JS.
Import JS.

(** ** Data model *)

(** [type Investment] (lines 14-20).  [amount] is a JavaScript number that
    the modelled operations carry and never inspect. *)
Record Investment := mkInvestment {
  id : Z;
  name : jsstring;
  type : jsstring;
  amount : Q;
  date : jsstring
}.

(** The six [useState] cells of the component (lines 24-30). *)
Record State := mkState {
  investments : list Investment;
  loading : bool;
  error : option jsstring;
  typeFilter : jsstring;
  searchQuery : jsstring;
  currentPage : Z
}.

Definition itemsPerPage : Z := 5.

Definition initialState : State :=
  {| investments := []; loading := true; error := None;
     typeFilter := []; searchQuery := []; currentPage := 1 |}.

Definition setInvestments (v : list Investment) (s : State) : State :=
  {| investments := v; loading := loading s; error := error s;
     typeFilter := typeFilter s; searchQuery := searchQuery s;
     currentPage := currentPage s |}.

Definition setLoading (v : bool) (s : State) : State :=
  {| investments := investments s; loading := v; error := error s;
     typeFilter := typeFilter s; searchQuery := searchQuery s;
     currentPage := currentPage s |}.

Definition setError (v : option jsstring) (s : State) : State :=
  {| investments := investments s; loading := loading s; error := v;
     typeFilter := typeFilter s; searchQuery := searchQuery s;
     currentPage := currentPage s |}.

Definition setTypeFilter (v : jsstring) (s : State) : State :=
  {| investments := investments s; loading := loading s; error := error s;
     typeFilter := v; searchQuery := searchQuery s;
     currentPage := currentPage s |}.

Definition setSearchQuery (v : jsstring) (s : State) : State :=
  {| investments := investments s; loading := loading s; error := error s;
     typeFilter := typeFilter s; searchQuery := v;
     currentPage := currentPage s |}.

Definition setCurrentPage (v : Z) (s : State) : State :=
  {| investments := investments s; loading := loading s; error := error s;
     typeFilter := typeFilter s; searchQuery := searchQuery s;
     currentPage := v |}.

(** ** What the component talks to *)

(** The body of a response, as far as [fetchInvestments] looks at it:
    [response.json()] may reject; the parsed value may be [null], on which
    reading [.content] throws; it may be any other JSON value whose
    [content] is missing or is not an array; or it carries an array of
    records.  (Arrays with ill-typed elements are outside the model.) *)
Inductive Body :=
| InvalidJson
| JsonNull
| JsonWithoutArray
| JsonContent (content : list Investment).

(** How a [fetch] call settles: the promise rejects (network failure), or
    it resolves to a response with its [ok] flag and body. *)
Inductive Settled :=
| Rejected
| Responded (ok : bool) (body : Body).

(** Everything the component does to the outside world. *)
Inductive Effect :=
| GET_investments (page size : Z)
| DELETE_investment (target : Z)
| toast_error (msg : jsstring)
| toast_success (msg : jsstring).

Definition msgLoadError : jsstring := str "Erro ao carregar investimentos".
Definition msgDeleteError : jsstring := str "Erro ao excluir investimento".
Definition msgDeleteSuccess : jsstring :=
  str "Investimento exclu" ++ [237%N] ++ str "do com sucesso".

(** What the component returns from a render (lines 87-212).  An empty
    [rows] stands for the single "Nenhum investimento encontrado." row. *)
Record Controls := mkControls {
  prevDisabled : bool;
  labelPage : Z;
  labelTotal : Z;
  nextDisabled : bool
}.

Inductive View :=
| LoadingView
| ErrorView (msg : jsstring)
| TableView (rows : list Investment) (controls : option Controls).

(** A [handleDelete] call suspended at its [await]: the identifier and the
    [investments] array of the render whose closure the call runs in. *)
Record PendingDelete := mkPendingDelete {
  deleteId : Z;
  capturedInvestments : list Investment
}.

(** The mounted component: its state, the page indices of the
    [fetchInvestments] calls suspended at their [await], and the suspended
    [handleDelete] calls.  [Crashed]: a render threw. *)
Inductive World :=
| Running (s : State) (fetches : list Z) (deletes : list PendingDelete)
| Crashed.

Inductive Event :=
| ChangeSearch (value : jsstring)
| ChangeType (value : jsstring)
| ClickPrev
| ClickNext
| ClickDelete (target : Z)
| FetchSettles (n : nat) (o : Settled)
| DeleteSettles (n : nat) (o : Settled).

Definition remove_nth {A : Type} (n : nat) (l : list A) : list A :=
  firstn n l ++ skipn (S n) l.

(** How the [try] block of [fetchInvestments] (lines 39-46) ends once the
    request has settled: it completes, having passed [data.content] to
    [setInvestments], or an exception reaches the [catch]. *)
Inductive ContentValue :=
| ContentArray (l : list Investment)
| ContentOther.

Inductive Completion :=
| Completed (content : ContentValue)
| Thrown.

Definition fetchInvestments_try (o : Settled) : Completion :=
  match o with
  | Rejected => Thrown
  | Responded ok body =>
      if negb ok then Thrown
      else match body with
           | InvalidJson => Thrown
           | JsonNull => Thrown
           | JsonWithoutArray => Completed ContentOther
           | JsonContent l => Completed (ContentArray l)
           end
  end.

(** The rest of [fetchInvestments] after the [await] (lines 41-52).  [None]
    as the state: a value without array methods was stored, and the next
    render throws at [investments.filter] (line 77). *)
Definition fetchInvestments_settle (o : Settled) (s : State)
  : option State * list Effect :=
  match fetchInvestments_try o with
  | Completed (ContentArray l) =>
      (Some (setLoading false (setError None (setInvestments l s))), [])
  | Completed ContentOther => (None, [])
  | Thrown =>
      (Some (setLoading false (setError (Some msgLoadError) s)),
       [toast_error msgLoadError])
  end.

(** [fetchInvestments] up to its [await] (lines 39-40), called from the
    effect in a render whose state is [s]. *)
Definition fetchInvestments_request (s : State) : State * Effect :=
  (setLoading true s, GET_investments (currentPage s - 1) itemsPerPage).

(** [handleDelete] after its [await] (lines 65-73); [captured] is the
    [investments] of the closure. *)
Definition handleDelete_settle (target : Z) (captured : list Investment)
  (o : Settled) (s : State) : State * list Effect :=
  match o with
  | Responded true _ =>
      (setInvestments
         (filter (fun investment => negb (id investment =? target)) captured) s,
       [toast_success msgDeleteSuccess])
  | _ => (s, [toast_error msgDeleteError])
  end.

(** The two pagination buttons (lines 191 and 202). *)
Definition prevPage (prev : Z) : Z := Math_max (prev - 1) 1.
Definition nextPage (totalPages prev : Z) : Z := Math_min (prev + 1) totalPages.

Section Component.

(** [String.prototype.toLowerCase]. *)
Variable toLowerCase : jsstring -> jsstring.

(** The callback of line 77-81. *)
Definition matches (typeFilter searchQuery : jsstring) (investment : Investment)
  : bool :=
  let matchesType :=
    if truthy typeFilter then string_eqb (type investment) typeFilter else true in
  let matchesSearch :=
    if truthy searchQuery
    then includes (toLowerCase (name investment)) (toLowerCase searchQuery)
    else true in
  matchesType && matchesSearch.

Definition filterInvestments (typeFilter searchQuery : jsstring)
  (l : list Investment) : list Investment :=
  filter (matches typeFilter searchQuery) l.

Definition filteredInvestments (s : State) : list Investment :=
  filterInvestments (typeFilter s) (searchQuery s) (investments s).

(** Lines 84-85. *)
Definition pageCount (filtered : list Investment) : Z :=
  Math_ceil_div (Z.of_nat (List.length filtered)) itemsPerPage.

Definition pageSlice (filtered : list Investment) (page : Z) : list Investment :=
  slice filtered ((page - 1) * itemsPerPage) (page * itemsPerPage).

Definition totalPages (s : State) : Z := pageCount (filteredInvestments s).

Definition paginatedInvestments (s : State) : list Investment :=
  pageSlice (filteredInvestments s) (currentPage s).

(** Lines 87-212. *)
Definition render (s : State) : View :=
  if loading s then LoadingView
  else if truthy_opt (error s)
  then ErrorView (match error s with Some m => m | None => [] end)
  else TableView (paginatedInvestments s)
         (if 1 <? totalPages s
          then Some {| prevDisabled := currentPage s =? 1;
                       labelPage := currentPage s;
                       labelTotal := totalPages s;
                       nextDisabled := currentPage s =? totalPages s |}
          else None).

(** The [useEffect] of lines 33-35, after the render that follows a
    handler: it runs [fetchInvestments] when [currentPage] differs from
    the one of the previous render [old]. *)
Definition useEffect (old s : State) (fetches : list Z)
  (deletes : list PendingDelete) : World * list Effect :=
  if currentPage old =? currentPage s then (Running s fetches deletes, [])
  else let (s', req) := fetchInvestments_request s in
       (Running s' (fetches ++ [currentPage s - 1]) deletes, [req]).

(** The [onChange] of the search input and the [onValueChange] of the
    select (lines 118-121, 127-130). *)
Definition onSearchChange (value : jsstring) (s : State) : State :=
  setCurrentPage 1 (setSearchQuery value s).

Definition onTypeChange (value : jsstring) (s : State) : State :=
  setCurrentPage 1 (setTypeFilter value s).

Definition onPrevClick (s : State) : State :=
  setCurrentPage (prevPage (currentPage s)) s.

Definition onNextClick (s : State) : State :=
  setCurrentPage (nextPage (totalPages s) (currentPage s)) s.

(** The component mounts: first render, then the effect. *)
Definition mount : World * list Effect :=
  let (s', req) := fetchInvestments_request initialState in
  (Running s' [currentPage initialState - 1] [], [req]).

(** One event.  [None]: the event cannot happen in this world (the
    control it comes from is not rendered or is disabled, or no such
    request is in flight). *)
Definition step (w : World) (e : Event) : option (World * list Effect) :=
  match w with
  | Crashed => None
  | Running s fetches deletes =>
      match e, render s with
      | ChangeSearch v, TableView _ _ =>
          Some (useEffect s (onSearchChange v s) fetches deletes)
      | ChangeType v, TableView _ _ =>
          Some (useEffect s (onTypeChange v s) fetches deletes)
      | ClickPrev, TableView _ (Some c) =>
          if prevDisabled c then None
          else Some (useEffect s (onPrevClick s) fetches deletes)
      | ClickNext, TableView _ (Some c) =>
          if nextDisabled c then None
          else Some (useEffect s (onNextClick s) fetches deletes)
      | ClickDelete target, TableView rows _ =>
          if existsb (fun investment => id investment =? target) rows
          then Some (Running s fetches
                       (deletes ++ [mkPendingDelete target (investments s)]),
                     [DELETE_investment target])
          else None
      | FetchSettles n o, _ =>
          match nth_error fetches n with
          | None => None
          | Some _ =>
              match fetchInvestments_settle o s with
              | (Some s', effs) =>
                  Some (Running s' (remove_nth n fetches) deletes, effs)
              | (None, effs) => Some (Crashed, effs)
              end
          end
      | DeleteSettles n o, _ =>
          match nth_error deletes n with
          | None => None
          | Some d =>
              let (s', effs) :=
                handleDelete_settle (deleteId d) (capturedInvestments d) o s in
              Some (Running s' fetches (remove_nth n deletes), effs)
          end
      | _, _ => None
      end
  end.

(** A sequence of events from a world, with the effects in order. *)
Fixpoint run (w : World) (events : list Event) : option (World * list Effect) :=
  match events with
  | [] => Some (w, [])
  | e :: rest =>
      match step w e with
      | None => None
      | Some (w', effs) =>
          match run w' rest with
          | None => None
          | Some (w'', effs') => Some (w'', effs ++ effs')
          end
      end
  end.

Definition reachable (w : World) : Prop :=
  exists events effs, run (fst mount) events = Some (w, effs).

End Component.

(** ** Vocabulary of the specification *)

(** [Subsequence out l]: [out] is [l] with some elements dropped, the
    others in their original order. *)
Inductive Subsequence {A : Type} : list A -> list A -> Prop :=
| Subsequence_nil : Subsequence [] []
| Subsequence_drop x out l : Subsequence out l -> Subsequence out (x :: l)
| Subsequence_keep x out l : Subsequence out l -> Subsequence (x :: out) (x :: l).

(** [Kept P l out]: [out] is obtained from [l] by keeping, in order,
    exactly the elements that satisfy [P]. *)
Inductive Kept {A : Type} (P : A -> Prop) : list A -> list A -> Prop :=
| Kept_nil : Kept P [] []
| Kept_keep x l out : P x -> Kept P l out -> Kept P (x :: l) (x :: out)
| Kept_drop x l out : ~ P x -> Kept P l out -> Kept P (x :: l) out.

(** [t] occurs in [s] as a contiguous substring. *)
Definition Substring (t s : jsstring) : Prop :=
  exists pre post, s = pre ++ t ++ post.

(** The predicate of the Filter Engine, in the words of the specification;
    [fold] is the case folding. *)
Definition passes (fold : jsstring -> jsstring) (category search : jsstring)
  (record : Investment) : Prop :=
  (category = [] \/ type record = category) /\
  (search = [] \/ Substring (fold search) (fold (name record))).

(** [l[a:b]] for [0 <= a <= b]: the elements at the indices [a], ..., [b-1]
    that exist. *)
Definition range {A : Type} (l : list A) (a b : nat) : list A :=
  firstn (b - a) (skipn a l).

Definition stateOf (w : World) : option State :=
  match w with
  | Running s _ _ => Some s
  | Crashed => None
  end.

Definition controlsOf (v : View) : option Controls :=
  match v with
  | TableView _ c => c
  | _ => None
  end.

Definition isFetch (e : Effect) : bool :=
  match e with
  | GET_investments _ _ => true
  | _ => false
  end.

Definition isPageClick (e : Event) : bool :=
  match e with
  | ClickPrev | ClickNext => true
  | _ => false
  end.

Definition isFilterChange (e : Event) : bool :=
  match e with
  | ChangeSearch _ | ChangeType _ => true
  | _ => false
  end.

(** The state a filter-input handler leaves behind. *)
Definition applyFilterChange (e : Event) (s : State) : State :=
  match e with
  | ChangeSearch v => setCurrentPage 1 (setSearchQuery v s)
  | ChangeType v => setCurrentPage 1 (setTypeFilter v s)
  | _ => s
  end.

(** The error cell only ever holds null or the load message. *)
Definition errorShape (w : World) : Prop :=
  match w with
  | Running s _ _ => error s = None \/ error s = Some msgLoadError
  | Crashed => True
  end.

(** The ways a request can fail. *)
Definition nonSuccessStatus (o : Settled) : bool :=
  match o with
  | Responded false _ => true
  | _ => false
  end.

Definition networkError (o : Settled) : bool :=
  match o with
  | Rejected => true
  | _ => false
  end.

(** A body that is not what the endpoint is documented to send, a JSON
    value with a [content] field holding an array of records. *)
Definition malformedBody (o : Settled) : bool :=
  match o with
  | Responded _ (JsonContent _) => false
  | Responded _ _ => true
  | Rejected => false
  end.

(** A body that cannot be read as a non-null JSON value. *)
Definition unreadableBody (o : Settled) : bool :=
  match o with
  | Responded _ InvalidJson | Responded _ JsonNull => true
  | _ => false
  end.

Definition loadFailure (o : Settled) : bool :=
  nonSuccessStatus o || networkError o || unreadableBody o.

Definition deleteFailure (o : Settled) : bool :=
  nonSuccessStatus o || networkError o.

(** Statements of the specification, as it words them. *)

(** No change of a filter input, in any reachable state, causes a request
    for a page. *)
Definition filter_change_never_fetches (toLowerCase : jsstring -> jsstring)
  : Prop :=
  forall w e w' effs,
    reachable toLowerCase w ->
    isFilterChange e = true ->
    step toLowerCase w e = Some (w', effs) ->
    existsb isFetch effs = false.

(** A click on previous or next, in any reachable state, lands on a page
    within [1, totalPages]. *)
Definition page_clicks_stay_in_range (toLowerCase : jsstring -> jsstring)
  : Prop :=
  forall w e w' effs s s',
    reachable toLowerCase w ->
    isPageClick e = true ->
    step toLowerCase w e = Some (w', effs) ->
    stateOf w = Some s ->
    stateOf w' = Some s' ->
    1 <= currentPage s' <= totalPages toLowerCase s.

(** The load ends in the error state exactly on a non-success status, a
    network error or a malformed body. *)
Definition load_fails_exactly_when_specified : Prop :=
  forall o s,
    (exists s', fst (fetchInvestments_settle o s) = Some s' /\ error s' <> None)
    <-> nonSuccessStatus o || networkError o || malformedBody o = true.

(** ** Sample data *)

Definition sample (i : Z) (n t : jsstring) : Investment :=
  {| id := i; name := n; type := t; amount := 1000 # 1; date := str "2024-01-15" |}.

Definition Acoes : jsstring := [65; 231; 245; 101; 115]%N.
Definition Imoveis : jsstring := [73; 109; 243; 118; 101; 105; 115]%N.
Definition Criptomoedas : jsstring := str "Criptomoedas".
Definition ApeCentro : jsstring := [65; 112; 234]%N ++ str " Centro".

Definition tesouro : Investment := sample 1 (str "Tesouro") Acoes.
Definition ape : Investment := sample 2 ApeCentro Imoveis.

Definition sixRecords : list Investment :=
  [ tesouro; ape;
    sample 3 (str "Bitcoin") Criptomoedas;
    sample 4 (str "PETR4") Acoes;
    sample 5 (str "Sala Comercial") Imoveis;
    sample 6 (str "Ether") Criptomoedas ].

Definition ok200 (l : list Investment) : Settled := Responded true (JsonContent l).
Definition deleted204 : Settled := Responded true InvalidJson.

Definition loadedState (l : list Investment) (page : Z) : State :=
  {| investments := l; loading := false; error := None;
     typeFilter := []; searchQuery := []; currentPage := page |}.

(** The table showing local page 2 of six loaded records, nothing in
    flight, and the events that lead there from the mount. *)
Definition pageTwoWorld : World := Running (loadedState sixRecords 2) [] [].

Definition toPageTwo : list Event :=
  [FetchSettles 0 (ok200 sixRecords); ClickNext; FetchSettles 0 (ok200 sixRecords)].

(** Sixteen records fill four local pages; after three clicks on next the
    server sends six records, which fill two: the table is on page 4 of 2. *)
Definition sixteenRecords : list Investment :=
  map (fun i => sample (Z.of_nat i) (str "Fundo") Acoes) (seq 1 16).

Definition toStalePage : list Event :=
  [FetchSettles 0 (ok200 sixteenRecords); ClickNext;
   FetchSettles 0 (ok200 sixteenRecords); ClickNext;
   FetchSettles 0 (ok200 sixteenRecords); ClickNext;
   FetchSettles 0 (ok200 sixRecords)].

Definition stalePageWorld : World := Running (loadedState sixRecords 4) [] [].

(** Two deletes requested from the same render, neither settled yet. *)
Definition twoDeletesRequested : list Event :=
  [FetchSettles 0 (ok200 [tesouro; ape]); ClickDelete 1; ClickDelete 2].

(** ** The addresses the component builds *)

(** The integers a JavaScript number holds exactly
    ([Number.isSafeInteger]). *)
Definition isSafeInteger (n : Z) : Prop :=
  - (2 ^ 53 - 1) <= n <= 2 ^ 53 - 1.

(** [`${n}`] for a safe integer [n]: its decimal digits, with a leading
    minus sign for a negative one.  Outside the safe integers a number is
    a rounded double and is written differently; this function is used
    for safe integers only. *)
Definition numberToString (n : Z) : jsstring :=
  str (NilZero.string_of_int (Z.to_int n)).

(** [handleEdit] (lines 55-57): the path handed to [router.push]. *)
Definition handleEdit (target : Z) : jsstring :=
  str "/investments/edit/" ++ numberToString target.

(** The address of a request (the template strings of lines 40 and 61);
    notifications have none. *)
Definition requestUrl (e : Effect) : option jsstring :=
  match e with
  | GET_investments page size =>
      Some (str "/investments?page=" ++ numberToString page
              ++ str "&size=" ++ numberToString size)
  | DELETE_investment target =>
      Some (str "/investments/" ++ numberToString target)
  | _ => None
  end.

(** ** Invariants of the running component *)

(** The stored page is at least 1. *)
Definition pagePositive (w : World) : Prop :=
  match w with
  | Running s _ _ => 1 <= currentPage s
  | Crashed => True
  end.



(** An event that is not the arrival of a page of more than [itemsPerPage]
    records. *)
Definition withinPageSize (e : Event) : bool :=
  match e with
  | FetchSettles _ (Responded _ (JsonContent l)) =>
      Z.of_nat (length l) <=? itemsPerPage
  | _ => true
  end.

(** No more than [itemsPerPage] records are held, nor captured by a delete
    in flight, and the page is 1. *)
Definition onePageWorld (w : World) : Prop :=
  match w with
  | Running s _ deletes =>
      Z.of_nat (length (investments s)) <= itemsPerPage
      /\ Forall (fun d => Z.of_nat (length (capturedInvestments d))
                          <= itemsPerPage) deletes
      /\ currentPage s = 1
  | Crashed => True
  end.

(** A request for a page asks for a remote page that exists (0 or more),
    with the fixed size. *)
Definition requestInRange (e : Effect) : Prop :=
  match e with
  | GET_investments page size => 0 <= page /\ size = itemsPerPage
  | _ => True
  end.


(** The records that do not carry the identifier [target]. *)
Definition without (target : Z) (l : list Investment) : list Investment :=
  filter (fun investment => negb (id investment =? target)) l.

(** The local pages 1, ..., [n]. *)
Definition pageNumbers (n : Z) : list Z :=
  map (fun i => Z.of_nat i + 1) (seq 0 (Z.to_nat n)).

(** ** The registration page *)

Module Register.

(** What [useForm] holds: the two fields of [defaultValues]. *)
Record FormValues := mkFormValues {
  username : jsstring;
  password : jsstring
}.

Inductive Field := Username | Password.

Definition msgRequired : jsstring :=
  str "Preenchimento obrigat" ++ [243%N] ++ str "rio".

(** [z.string().min(1, {message})] on a string: an issue when the length
    is below 1. *)
Definition stringMin1 (field : Field) (v : jsstring) : list (Field * jsstring) :=
  if Z.of_nat (length v) <? 1 then [(field, msgRequired)] else [].

(** [formSchema] (lines 11-18) applied to the form values: the issues, in
    the order of the keys. *)
Definition formSchema (v : FormValues) : list (Field * jsstring) :=
  stringMin1 Username (username v) ++ stringMin1 Password (password v).

(** What can reach the [catch] of [onSubmit]. *)
Inductive Failure :=
| FetchRejected
| StatusNotOk
| BodyNotJson.

Section WithJson.

(** The values [response.json()] can resolve to. *)
Variable Json : Type.

Inductive Parsed :=
| ParseFails
| ParsedAs (data : Json).

Inductive Outcome :=
| NoResponse
| Response (ok : bool) (body : Parsed).

Inductive Output :=
| POST_register (body : FormValues)
| console_log (data : Json)
| console_error (reason : Failure).

(** The page: the [isLoading] cell and the [onSubmit] calls suspended at
    an [await]. *)
Record Page := mkPage {
  isLoading : bool;
  inFlight : list FormValues
}.

Definition initialPage : Page := {| isLoading := false; inFlight := [] |}.

(** [onSubmit] once its request has settled (lines 41-50). *)
Definition onSubmit_settle (o : Outcome) : bool * list Output :=
  let logged :=
    match o with
    | NoResponse => console_error FetchRejected
    | Response ok body =>
        if negb ok then console_error StatusNotOk
        else match body with
             | ParseFails => console_error BodyNotJson
             | ParsedAs data => console_log data
             end
    end in
  (false, [logged]).

Inductive Action :=
| Submit (values : FormValues)
| Settles (n : nat) (o : Outcome).

(** One action.  The submit button is disabled while [isLoading];
    [form.handleSubmit] calls [onSubmit] only when the schema raises no
    issue. *)
Definition act (p : Page) (a : Action) : option (Page * list Output) :=
  match a with
  | Submit values =>
      if isLoading p then None
      else match formSchema values with
           | [] => Some ({| isLoading := true;
                            inFlight := inFlight p ++ [values] |},
                         [POST_register values])
           | _ :: _ => Some (p, [])
           end
  | Settles n o =>
      match nth_error (inFlight p) n with
      | None => None
      | Some _ =>
          let (l, out) := onSubmit_settle o in
          Some ({| isLoading := l; inFlight := remove_nth n (inFlight p) |}, out)
      end
  end.

Fixpoint acts (p : Page) (l : list Action) : option (Page * list Output) :=
  match l with
  | [] => Some (p, [])
  | a :: rest =>
      match act p a with
      | None => None
      | Some (p', out) =>
          match acts p' rest with
          | None => None
          | Some (p'', out') => Some (p'', out ++ out')
          end
      end
  end.

Definition oneInFlight (p : Page) : Prop :=
  if isLoading p then exists values, inFlight p = [values] /\ formSchema values = []
  else inFlight p = [].

Definition isPost (o : Output) : bool :=
  match o with
  | POST_register _ => true
  | _ => false
  end.

Definition isError (o : Output) : bool :=
  match o with
  | console_error _ => true
  | _ => false
  end.

Definition validPost (o : Output) : Prop :=
  match o with
  | POST_register v => username v <> [] /\ password v <> []
  | _ => True
  end.

Definition failed (o : Outcome) : bool :=
  match o with
  | Response true (ParsedAs _) => false
  | _ => true
  end.

End WithJson.

Arguments ParseFails {Json}.
Arguments ParsedAs {Json} data.
Arguments NoResponse {Json}.
Arguments Response {Json} ok body.
Arguments POST_register {Json} body.
Arguments console_log {Json} data.
Arguments console_error {Json} reason.
Arguments Submit {Json} values.
Arguments Settles {Json} n o.
Arguments onSubmit_settle {Json} o.
Arguments act {Json} p a.
Arguments acts {Json} p l.
Arguments isPost {Json} o.
Arguments isError {Json} o.
Arguments validPost {Json} o.
Arguments failed {Json} o.

End Register.


Definition erroredState : State :=
  {| investments := sixRecords; loading := false; error := Some msgLoadError;
     typeFilter := []; searchQuery := []; currentPage := 2 |}.


(** A run against a server that sends at most five records. *)
Definition smallPageRun : list Event :=
  [FetchSettles 0 (ok200 [tesouro; ape]); ChangeSearch (str "e");
   ClickDelete 1; DeleteSettles 0 deleted204].

Definition completeForm : Register.FormValues :=
  {| Register.username := str "ana"; Register.password := str "s3nha" |}.

Definition formWithoutPassword : Register.FormValues :=
  {| Register.username := str "ana"; Register.password := [] |}.

(** ** Facts about the built-ins *)

Lemma string_eqb_eq (a b : jsstring) : string_eqb a b = true <-> a = b.
Proof.
  revert b; induction a as [|x a IH]; intros [|y b]; simpl;
    try (split; [discriminate | congruence]); try tauto.
  unfold codeunit_eqb. rewrite andb_true_iff, N.eqb_eq, IH.
  split; [intros [-> ->]; reflexivity | intros E; injection E; auto].
Qed.

Lemma truthy_false (s : jsstring) : truthy s = false <-> s = [].
Proof. destruct s; simpl; split; congruence. Qed.

Lemma startsWith_spec (s t : jsstring) :
  startsWith s t = true <-> exists post, s = t ++ post.
Proof.
  revert s; induction t as [|y t IH]; intros s; simpl.
  - split; [intros _; exists s; reflexivity | reflexivity].
  - destruct s as [|x s].
    + split; [discriminate | intros [post E]; discriminate].
    + unfold codeunit_eqb. rewrite andb_true_iff, N.eqb_eq, IH. split.
      * intros [-> [post ->]]. exists post. reflexivity.
      * intros [post E]. injection E as -> ->. split; [reflexivity | eauto].
Qed.

Lemma includes_spec (s t : jsstring) :
  includes s t = true <-> Substring t s.
Proof.
  unfold Substring. induction s as [|x s IH].
  - simpl. rewrite orb_false_r, startsWith_spec. split.
    + intros [post E]. exists [], post. exact E.
    + intros [pre [post E]]. destruct pre as [|p pre]; [|discriminate].
      exists post. exact E.
  - change (includes (x :: s) t)
      with (startsWith (x :: s) t || includes s t).
    rewrite orb_true_iff, startsWith_spec, IH. split.
    + intros [[post E] | [pre [post E]]].
      * exists [], post. exact E.
      * exists (x :: pre), post. simpl. rewrite E. reflexivity.
    + intros [pre [post E]]. destruct pre as [|p pre].
      * left. exists post. exact E.
      * right. simpl in E. injection E as _ E. exists pre, post. exact E.
Qed.

Lemma Math_ceil_div_pos (a : Z) (b : positive) :
  Math_ceil_div a (Z.pos b) = - ((- a) / Z.pos b).
Proof.
  unfold Math_ceil_div, Qceiling, Qfloor, Qdiv, Qinv, Qmult, Qopp, inject_Z.
  simpl Qnum. simpl Qden. rewrite Z.mul_1_r. reflexivity.
Qed.

(** [Math_ceil_div a b] is the least integer [q] with [a <= b * q]. *)
Lemma Math_ceil_div_bounds (a b : Z) :
  0 < b ->
  b * (Math_ceil_div a b - 1) < a <= b * Math_ceil_div a b.
Proof.
  intros Hb. destruct b as [|b|b]; try lia.
  rewrite Math_ceil_div_pos.
  pose proof (Z.mul_div_le (- a) (Z.pos b) Hb).
  pose proof (Z.mul_succ_div_gt (- a) (Z.pos b) Hb).
  lia.
Qed.

Lemma slice_range {A : Type} (l : list A) (a b : Z) :
  0 <= a <= b ->
  slice l a b = range l (Z.to_nat a) (Z.to_nat b).
Proof.
  intros [Ha Hab]. unfold slice, range.
  destruct (Z.ltb_spec a 0) as [?|_]; [lia|].
  destruct (Z.ltb_spec b 0) as [?|_]; [lia|].
  set (len := Z.of_nat (length l)).
  destruct (Z_lt_le_dec a len) as [Hlt | Hge].
  - rewrite (Z.min_l a len) by lia.
    destruct (Z_le_gt_dec b len) as [Hb | Hb].
    + rewrite (Z.min_l b len) by lia. f_equal. lia.
    + rewrite (Z.min_r b len) by lia.
      rewrite !firstn_all2; [reflexivity | |];
        rewrite length_skipn; unfold len in *; lia.
  - rewrite (Z.min_r a len) by lia.
    rewrite (skipn_all2 l (n := Z.to_nat len)) by (unfold len; lia).
    rewrite (skipn_all2 l (n := Z.to_nat a)) by (unfold len in *; lia).
    rewrite !firstn_nil. reflexivity.
Qed.

Lemma range_nth_error {A : Type} (l : list A) (a b k : nat) :
  nth_error (range l a b) k =
  if (k <? b - a)%nat then nth_error l (a + k) else None.
Proof.
  unfold range. destruct (Nat.ltb_spec k (b - a)) as [Hk | Hk].
  - rewrite nth_error_firstn. destruct (Nat.ltb_spec k (b - a)); [|lia].
    apply nth_error_skipn.
  - apply nth_error_None. rewrite length_firstn. lia.
Qed.

Lemma range_past_end {A : Type} (l : list A) (a b : nat) :
  (length l <= a)%nat -> range l a b = [].
Proof. intros H. unfold range. rewrite skipn_all2 by exact H. apply firstn_nil. Qed.

Lemma filter_Subsequence {A : Type} (f : A -> bool) (l : list A) :
  Subsequence (filter f l) l.
Proof.
  induction l as [|x l IH]; simpl; [constructor|].
  destruct (f x); constructor; exact IH.
Qed.

Lemma filter_Kept {A : Type} (f : A -> bool) (P : A -> Prop) (l : list A) :
  (forall x, f x = true <-> P x) -> Kept P l (filter f l).
Proof.
  intros Hf. induction l as [|x l IH]; simpl; [constructor|].
  destruct (f x) eqn:E.
  - apply Kept_keep; [apply Hf; exact E | exact IH].
  - apply Kept_drop; [rewrite <- Hf; congruence | exact IH].
Qed.

Lemma filter_all {A : Type} (f : A -> bool) (l : list A) :
  (forall x, f x = true) -> filter f l = l.
Proof.
  intros Hf. induction l as [|x l IH]; simpl; [reflexivity|].
  rewrite Hf, IH. reflexivity.
Qed.

(** ** The Filter Engine and the Pagination Engine *)

Section Engines.

Variable toLowerCase : jsstring -> jsstring.

Lemma matches_passes (category search : jsstring) (record : Investment) :
  matches toLowerCase category search record = true
  <-> passes toLowerCase category search record.
Proof.
  unfold matches, passes. rewrite andb_true_iff.
  assert (HT : (if truthy category
                then string_eqb (type record) category else true) = true
               <-> category = [] \/ type record = category).
  { destruct category as [|c category]; simpl truthy; cbv iota.
    - split; auto.
    - rewrite string_eqb_eq. split; [auto | intros [E | E]; congruence]. }
  assert (HS : (if truthy search
                then includes (toLowerCase (name record)) (toLowerCase search)
                else true) = true
               <-> search = [] \/
                   Substring (toLowerCase search) (toLowerCase (name record))).
  { destruct search as [|c search]; simpl truthy; cbv iota.
    - split; auto.
    - rewrite includes_spec. split; [auto | intros [E | E]; congruence]. }
  tauto.
Qed.

(** C2.  For every record list [R] and filter state (category, search),
    the filtered list is a subsequence of [R] in the original order; it
    keeps exactly the records for which (category is empty or equals the
    record's type) and (search is empty or the lower-cased name contains
    the lower-cased search as a substring); and with both fields empty
    the result is [R] itself. *)
Theorem filter_keeps_exactly_the_passing_records
  (R : list Investment) (category search : jsstring) :
  Subsequence (filterInvestments toLowerCase category search R) R
  /\ Kept (passes toLowerCase category search) R
          (filterInvestments toLowerCase category search R)
  /\ (forall record,
        In record (filterInvestments toLowerCase category search R)
        <-> In record R /\ passes toLowerCase category search record)
  /\ filterInvestments toLowerCase [] [] R = R.
Proof.
  unfold filterInvestments. split; [|split; [|split]].
  - apply filter_Subsequence.
  - apply filter_Kept. intros x. apply matches_passes.
  - intros record. rewrite filter_In, matches_passes. tauto.
  - apply filter_all. reflexivity.
Qed.

End Engines.

Lemma pageCount_eq (filtered : list Investment) :
  pageCount filtered = (Z.of_nat (length filtered) + 4) / 5.
Proof.
  unfold pageCount, itemsPerPage. rewrite Math_ceil_div_pos.
  Z.to_euclidean_division_equations. lia.
Qed.

Lemma pageCount_nonneg (filtered : list Investment) : 0 <= pageCount filtered.
Proof. rewrite pageCount_eq. Z.to_euclidean_division_equations. lia. Qed.

Lemma pageSlice_past_end (filtered : list Investment) (p : Z) :
  pageCount filtered < p -> pageSlice filtered p = [].
Proof.
  intros H. pose proof (pageCount_nonneg filtered) as H0.
  pose proof (Math_ceil_div_bounds (Z.of_nat (length filtered)) itemsPerPage
                ltac:(reflexivity)) as [_ Hc].
  fold (pageCount filtered) in Hc. unfold itemsPerPage in Hc.
  unfold pageSlice, itemsPerPage. rewrite slice_range by lia.
  apply range_past_end. lia.
Qed.

(** C3.  For a filtered list of length [C], page size 5 and a current page
    [p >= 1]: the page count is the ceiling of [C / 5], that is the least
    integer [n] with [C <= 5 * n]; it is 0 exactly when [C = 0]; the visible
    slice is [filtered[(p-1)*5 : p*5]], whose [k]-th element is the element
    [(p-1)*5 + k] of the filtered list for [k < 5]; and the slice is empty
    whenever [(p-1)*5 >= C]. *)
Theorem pagination_counts_and_slices (filtered : list Investment) (p : Z) :
  1 <= p ->
  let C := Z.of_nat (length filtered) in
  let P := itemsPerPage in
  (P * (pageCount filtered - 1) < C <= P * pageCount filtered)
  /\ pageCount filtered = (C + (P - 1)) / P
  /\ (pageCount filtered = 0 <-> C = 0)
  /\ pageSlice filtered p
     = range filtered (Z.to_nat ((p - 1) * P)) (Z.to_nat (p * P))
  /\ (forall k : nat,
        nth_error (pageSlice filtered p) k =
        if (k <? 5)%nat
        then nth_error filtered (Z.to_nat ((p - 1) * P) + k)
        else None)
  /\ ((p - 1) * P >= C -> pageSlice filtered p = []).
Proof.
  intros Hp C P.
  assert (Hb : P * (pageCount filtered - 1) < C <= P * pageCount filtered)
    by (apply Math_ceil_div_bounds; reflexivity).
  assert (Hs : pageSlice filtered p
               = range filtered (Z.to_nat ((p - 1) * P)) (Z.to_nat (p * P)))
    by (unfold pageSlice; apply slice_range; unfold P, itemsPerPage; lia).
  repeat split; try apply Hb.
  - apply pageCount_eq.
  - intros E. rewrite E in Hb. unfold P, itemsPerPage in Hb. lia.
  - intros E. unfold P, itemsPerPage in Hb. lia.
  - exact Hs.
  - intros k. rewrite Hs, range_nth_error.
    replace (Z.to_nat (p * P) - Z.to_nat ((p - 1) * P))%nat with 5%nat
      by (unfold P, itemsPerPage; lia).
    reflexivity.
  - intros Hge. rewrite Hs. apply range_past_end. unfold C in Hge. lia.
Qed.

(** ** The component as a transition system *)

Lemma useEffect_cases (old s : State) (fetches : list Z)
  (deletes : list PendingDelete) :
  (currentPage old = currentPage s /\
   useEffect old s fetches deletes = (Running s fetches deletes, []))
  \/
  (currentPage old <> currentPage s /\
   useEffect old s fetches deletes =
   (Running (setLoading true s) (fetches ++ [currentPage s - 1]) deletes,
    [GET_investments (currentPage s - 1) itemsPerPage])).
Proof.
  unfold useEffect, fetchInvestments_request.
  destruct (Z.eqb_spec (currentPage old) (currentPage s)); [left | right]; auto.
Qed.

Lemma loadFailure_Thrown (o : Settled) :
  fetchInvestments_try o = Thrown <-> loadFailure o = true.
Proof.
  destruct o as [|[|] [| | |l]]; cbv; split; congruence.
Qed.

Lemma msgLoadError_truthy : truthy msgLoadError = true.
Proof. reflexivity. Qed.

Section Transitions.

Variable toLowerCase : jsstring -> jsstring.

Lemma render_TableView (s : State) (rows : list Investment)
  (c : option Controls) :
  render toLowerCase s = TableView rows c ->
  loading s = false /\ truthy_opt (error s) = false
  /\ rows = paginatedInvestments toLowerCase s
  /\ (c <> None <-> 1 < totalPages toLowerCase s)
  /\ (forall k, c = Some k ->
        prevDisabled k = (currentPage s =? 1)
        /\ nextDisabled k = (currentPage s =? totalPages toLowerCase s)).
Proof.
  unfold render.
  destruct (loading s); [discriminate|].
  destruct (truthy_opt (error s)); [discriminate|].
  intros E. injection E as <- <-.
  destruct (Z.ltb_spec 1 (totalPages toLowerCase s)) as [Hlt | Hge].
  - split; [reflexivity|]. split; [reflexivity|]. split; [reflexivity|].
    split; [split; [intros _; exact Hlt | discriminate]|].
    intros k Ek. injection Ek as <-. split; reflexivity.
  - split; [reflexivity|]. split; [reflexivity|]. split; [reflexivity|].
    split; [split; [congruence | lia]|].
    discriminate.
Qed.

Lemma render_not_TableView (s : State) :
  loading s = true \/ truthy_opt (error s) = true ->
  controlsOf (render toLowerCase s) = None.
Proof.
  unfold render. intros [H | H].
  - rewrite H. reflexivity.
  - destruct (loading s); [reflexivity|]. rewrite H. reflexivity.
Qed.

(** C10.  The previous/next buttons and the page label are rendered if
    and only if the table view is rendered and [totalPages > 1]; inside
    the table view they are rendered exactly when [totalPages > 1], so
    they are absent both for an empty filtered set ([totalPages = 0]) and
    for one that fits a single page ([totalPages = 1]). *)
Theorem controls_rendered_iff_more_than_one_page (s : State) :
  (controlsOf (render toLowerCase s) <> None
   <-> loading s = false /\ truthy_opt (error s) = false
       /\ 1 < totalPages toLowerCase s)
  /\ (forall rows c, render toLowerCase s = TableView rows c ->
        (c <> None <-> 1 < totalPages toLowerCase s))
  /\ (forall rows c, render toLowerCase s = TableView rows c ->
        totalPages toLowerCase s = 0 \/ totalPages toLowerCase s = 1 ->
        c = None).
Proof.
  split; [|split].
  - destruct (render toLowerCase s) as [| msg | rows c] eqn:E.
    + simpl. split; [congruence|]. intros [Hl [He _]].
      unfold render in E. rewrite Hl, He in E. discriminate.
    + simpl. split; [congruence|]. intros [Hl [He _]].
      unfold render in E. rewrite Hl, He in E. discriminate.
    + simpl. apply render_TableView in E. tauto.
  - intros rows c E. apply render_TableView in E. tauto.
  - intros rows c E Htp. apply render_TableView in E.
    destruct E as [_ [_ [_ [Hc _]]]].
    destruct c as [k|]; [|reflexivity].
    assert (1 < totalPages toLowerCase s) by (apply Hc; discriminate). lia.
Qed.

Lemma step_ClickPrev (s : State) fetches deletes w' effs :
  step toLowerCase (Running s fetches deletes) ClickPrev = Some (w', effs) ->
  1 < totalPages toLowerCase s /\ currentPage s <> 1
  /\ (w', effs) = useEffect s (onPrevClick s) fetches deletes.
Proof.
  unfold step. intros H.
  destruct (render toLowerCase s) as [| msg | rows [c|]] eqn:E;
    try discriminate.
  apply render_TableView in E. destruct E as [_ [_ [_ [Hc Hd]]]].
  destruct (Hd c eq_refl) as [Hp _].
  destruct (prevDisabled c); [discriminate|].
  injection H as H. symmetry in Hp. apply Z.eqb_neq in Hp.
  split; [apply Hc; discriminate|]. split; [exact Hp|].
  symmetry; exact H.
Qed.

Lemma step_ClickNext (s : State) fetches deletes w' effs :
  step toLowerCase (Running s fetches deletes) ClickNext = Some (w', effs) ->
  1 < totalPages toLowerCase s /\ currentPage s <> totalPages toLowerCase s
  /\ (w', effs) = useEffect s (onNextClick toLowerCase s) fetches deletes.
Proof.
  unfold step. intros H.
  destruct (render toLowerCase s) as [| msg | rows [c|]] eqn:E;
    try discriminate.
  apply render_TableView in E. destruct E as [_ [_ [_ [Hc Hd]]]].
  destruct (Hd c eq_refl) as [_ Hn].
  destruct (nextDisabled c); [discriminate|].
  injection H as H. symmetry in Hn. apply Z.eqb_neq in Hn.
  split; [apply Hc; discriminate|]. split; [exact Hn|].
  symmetry; exact H.
Qed.

Lemma step_filter_change (s : State) fetches deletes e w' effs :
  isFilterChange e = true ->
  step toLowerCase (Running s fetches deletes) e = Some (w', effs) ->
  loading s = false /\ truthy_opt (error s) = false
  /\ (w', effs) = useEffect s (applyFilterChange e s) fetches deletes.
Proof.
  intros He H. unfold step in H.
  destruct (render toLowerCase s) as [| msg | rows c] eqn:E;
    destruct e; try discriminate;
    apply render_TableView in E; destruct E as [Hl [Herr _]];
    injection H as H; (split; [exact Hl|]); (split; [exact Herr|]);
    symmetry; exact H.
Qed.

Lemma step_FetchSettles (s : State) fetches deletes n o w' effs :
  step toLowerCase (Running s fetches deletes) (FetchSettles n o)
  = Some (w', effs) ->
  (n < length fetches)%nat
  /\ effs = snd (fetchInvestments_settle o s)
  /\ w' = match fst (fetchInvestments_settle o s) with
          | Some s' => Running s' (remove_nth n fetches) deletes
          | None => Crashed
          end.
Proof.
  unfold step. intros H.
  assert (H' : match nth_error fetches n with
               | None => None
               | Some _ =>
                   match fetchInvestments_settle o s with
                   | (Some s', effs) =>
                       Some (Running s' (remove_nth n fetches) deletes, effs)
                   | (None, effs) => Some (Crashed, effs)
                   end
               end = Some (w', effs))
    by (destruct (render toLowerCase s) as [| | ? ?]; exact H).
  clear H. destruct (nth_error fetches n) eqn:En; [|discriminate].
  split; [apply nth_error_Some; congruence|].
  destruct (fetchInvestments_settle o s) as [[s'|] effs0];
    injection H' as <- <-; split; reflexivity.
Qed.

Lemma step_DeleteSettles (s : State) fetches deletes n o w' effs :
  step toLowerCase (Running s fetches deletes) (DeleteSettles n o)
  = Some (w', effs) ->
  exists d, nth_error deletes n = Some d
  /\ effs = snd (handleDelete_settle (deleteId d) (capturedInvestments d) o s)
  /\ w' = Running
            (fst (handleDelete_settle (deleteId d) (capturedInvestments d) o s))
            fetches (remove_nth n deletes).
Proof.
  unfold step. intros H.
  assert (H' : match nth_error deletes n with
               | None => None
               | Some d =>
                   let (s', effs) :=
                     handleDelete_settle (deleteId d) (capturedInvestments d)
                       o s in
                   Some (Running s' fetches (remove_nth n deletes), effs)
               end = Some (w', effs))
    by (destruct (render toLowerCase s) as [| | ? ?]; exact H).
  clear H. destruct (nth_error deletes n) as [d|] eqn:En; [|discriminate].
  exists d. split; [reflexivity|].
  destruct (handleDelete_settle (deleteId d) (capturedInvestments d) o s)
    as [s' effs0].
  injection H' as <- <-. split; reflexivity.
Qed.

Lemma useEffect_state (old s : State) fetches deletes w effs :
  (w, effs) = useEffect old s fetches deletes ->
  exists s', stateOf w = Some s'
             /\ currentPage s' = currentPage s
             /\ investments s' = investments s
             /\ typeFilter s' = typeFilter s
             /\ searchQuery s' = searchQuery s
             /\ error s' = error s
             /\ (existsb isFetch effs = true -> loading s' = true).
Proof.
  intros E.
  destruct (useEffect_cases old s fetches deletes) as [[_ H] | [_ H]];
    rewrite H in E; injection E as -> ->; eexists; simpl;
    repeat split; try reflexivity; intros; congruence.
Qed.

(** C4, as the code has it.  The previous button, when it can be clicked,
    sets the page to [max(p - 1, 1)] and the next button to
    [min(p + 1, totalPages)]; the first never goes below 1, the second
    never above [totalPages], and from a page within [1, totalPages] both
    stay within it.  Next lands within [1, totalPages] from every page
    [p >= 1]; previous does so exactly when [p <= totalPages + 1]: from a
    stored page further above [totalPages] it lands on [p - 1], still
    above [totalPages].  A settled fetch or delete, after which filter and
    pagination are recomputed, leaves the stored page as it is, and
    whenever the stored page exceeds [totalPages] the visible slice is
    empty. *)
Theorem navigation_is_clamped_and_recomputation_keeps_the_page
  (s : State) (fetches : list Z) (deletes : list PendingDelete) :
  (forall w' effs,
      step toLowerCase (Running s fetches deletes) ClickPrev = Some (w', effs) ->
      exists s', stateOf w' = Some s'
                 /\ currentPage s' = Z.max (currentPage s - 1) 1)
  /\ (forall w' effs,
      step toLowerCase (Running s fetches deletes) ClickNext = Some (w', effs) ->
      exists s', stateOf w' = Some s'
                 /\ currentPage s'
                    = Z.min (currentPage s + 1) (totalPages toLowerCase s))
  /\ (forall p, prevPage p = Z.max (p - 1) 1 /\ 1 <= prevPage p)
  /\ (forall tp p, nextPage tp p = Z.min (p + 1) tp /\ nextPage tp p <= tp)
  /\ (forall tp p, 1 <= p <= tp ->
        1 <= prevPage p <= tp /\ 1 <= nextPage tp p <= tp)
  /\ (forall tp p, 1 <= p -> 1 <= tp -> 1 <= nextPage tp p <= tp)
  /\ (forall tp p, 1 <= tp ->
        (1 <= prevPage p <= tp <-> p <= tp + 1)
        /\ (tp + 1 < p -> prevPage p = p - 1 /\ tp < prevPage p))
  /\ (forall n o w' effs s',
        step toLowerCase (Running s fetches deletes) (FetchSettles n o)
        = Some (w', effs) ->
        stateOf w' = Some s' -> currentPage s' = currentPage s)
  /\ (forall n o w' effs s',
        step toLowerCase (Running s fetches deletes) (DeleteSettles n o)
        = Some (w', effs) ->
        stateOf w' = Some s' -> currentPage s' = currentPage s)
  /\ (totalPages toLowerCase s < currentPage s ->
      paginatedInvestments toLowerCase s = []).
Proof.
  repeat match goal with |- _ /\ _ => split end.
  - intros w' effs H. apply step_ClickPrev in H. destruct H as [_ [_ H]].
    apply useEffect_state in H. destruct H as [s' [Hs [Hp _]]].
    exists s'. split; [exact Hs|]. rewrite Hp. reflexivity.
  - intros w' effs H. apply step_ClickNext in H. destruct H as [_ [_ H]].
    apply useEffect_state in H. destruct H as [s' [Hs [Hp _]]].
    exists s'. split; [exact Hs|]. rewrite Hp. reflexivity.
  - intros p. unfold prevPage, Math_max. split; [reflexivity | lia].
  - intros tp p. unfold nextPage, Math_min. split; [reflexivity | lia].
  - intros tp p Hp. unfold prevPage, nextPage, Math_max, Math_min. lia.
  - intros tp p Hp Htp. unfold nextPage, Math_min. lia.
  - intros tp p Htp. unfold prevPage, Math_max. lia.
  - intros n o w' effs s' H Hs. apply step_FetchSettles in H.
    destruct H as [_ [_ ->]]. unfold fetchInvestments_settle in Hs.
    destruct (fetchInvestments_try o) as [[l|]|]; simpl in Hs;
      try discriminate; injection Hs as <-; reflexivity.
  - intros n o w' effs s' H Hs. apply step_DeleteSettles in H.
    destruct H as [d [_ [_ ->]]]. simpl in Hs. injection Hs as <-.
    destruct o as [|[|] b]; reflexivity.
  - intros H. apply pageSlice_past_end. exact H.
Qed.

(** C5.  When a load fails (the request is rejected, the status is not a
    success, or the body cannot be read), the state ends with the error
    set and [loading = false], the records are the ones held before, the
    failure is announced, and the component renders the error view, not
    the table. *)
Theorem failed_load_sets_error_and_keeps_records (s : State) (o : Settled) :
  loadFailure o = true ->
  exists s',
    fetchInvestments_settle o s = (Some s', [toast_error msgLoadError])
    /\ error s' = Some msgLoadError
    /\ error s' <> None
    /\ loading s' = false
    /\ investments s' = investments s
    /\ render toLowerCase s' = ErrorView msgLoadError
    /\ (forall fetches deletes n,
          (n < length fetches)%nat ->
          step toLowerCase (Running s fetches deletes) (FetchSettles n o)
          = Some (Running s' (remove_nth n fetches) deletes,
                  [toast_error msgLoadError])).
Proof.
  intros H. apply loadFailure_Thrown in H.
  exists (setLoading false (setError (Some msgLoadError) s)).
  assert (E : fetchInvestments_settle o s
              = (Some (setLoading false (setError (Some msgLoadError) s)),
                 [toast_error msgLoadError]))
    by (unfold fetchInvestments_settle; rewrite H; reflexivity).
  repeat match goal with |- _ /\ _ => split end;
    try reflexivity; try exact E; try discriminate.
  intros fetches deletes n Hn. unfold step.
  apply nth_error_Some in Hn.
  destruct (nth_error fetches n) eqn:En; [|congruence].
  rewrite E. destruct (render toLowerCase s) as [| | ? ?]; reflexivity.
Qed.

(** C7.  When the remote delete fails (the request is rejected or the
    status is not a success), the failure is announced by an error
    notification and the whole state (records, loading flag, error and
    the rest) is what it was. *)
Theorem failed_delete_is_reported_and_changes_nothing
  (s : State) (target : Z) (captured : list Investment) (o : Settled) :
  deleteFailure o = true ->
  handleDelete_settle target captured o s = (s, [toast_error msgDeleteError])
  /\ (forall fetches deletes n,
        nth_error deletes n = Some (mkPendingDelete target captured) ->
        step toLowerCase (Running s fetches deletes) (DeleteSettles n o)
        = Some (Running s fetches (remove_nth n deletes),
                [toast_error msgDeleteError])).
Proof.
  intros H.
  assert (E : handleDelete_settle target captured o s
              = (s, [toast_error msgDeleteError]))
    by (destruct o as [|[|] b]; try discriminate; reflexivity).
  split; [exact E|].
  intros fetches deletes n Hn. unfold step. rewrite Hn. simpl deleteId.
  simpl capturedInvestments. rewrite E.
  destruct (render toLowerCase s) as [| | ? ?]; reflexivity.
Qed.

(** C1, as the code has it.  A change of the search text or of the
    category stores the new value, sets the page to 1 and leaves the
    records untouched; filter and pagination are recomputed from these
    records.  No request is issued when the page was already 1; when it
    was not, the effect that watches the page issues one request for
    remote page 0 and sets [loading]. *)
Theorem filter_change_fetches_exactly_when_the_page_moves
  (s : State) (fetches : list Z) (deletes : list PendingDelete)
  (e : Event) (w' : World) (effs : list Effect) :
  isFilterChange e = true ->
  step toLowerCase (Running s fetches deletes) e = Some (w', effs) ->
  let s1 := applyFilterChange e s in
  investments s1 = investments s
  /\ currentPage s1 = 1
  /\ filteredInvestments toLowerCase s1
     = filterInvestments toLowerCase (typeFilter s1) (searchQuery s1)
         (investments s)
  /\ totalPages toLowerCase s1
     = pageCount (filterInvestments toLowerCase (typeFilter s1)
                    (searchQuery s1) (investments s))
  /\ paginatedInvestments toLowerCase s1
     = pageSlice (filterInvestments toLowerCase (typeFilter s1)
                    (searchQuery s1) (investments s)) 1
  /\ (currentPage s = 1 -> w' = Running s1 fetches deletes /\ effs = [])
  /\ (currentPage s <> 1 ->
      w' = Running (setLoading true s1) (fetches ++ [0]) deletes
      /\ effs = [GET_investments 0 itemsPerPage])
  /\ (existsb isFetch effs = true <-> currentPage s <> 1).
Proof.
  intros He H s1. apply step_filter_change in H; [|exact He].
  destruct H as [_ [_ H]]. fold s1 in H.
  assert (Hinv : investments s1 = investments s)
    by (unfold s1; destruct e; try discriminate; reflexivity).
  assert (Hp : currentPage s1 = 1)
    by (unfold s1; destruct e; try discriminate; reflexivity).
  unfold filteredInvestments, totalPages, paginatedInvestments,
    filteredInvestments.
  rewrite Hinv, Hp.
  repeat match goal with |- _ /\ _ => split end; try reflexivity.
  - intros H1.
    destruct (useEffect_cases s s1 fetches deletes) as [[_ U] | [N _]];
      [|congruence].
    rewrite U in H. injection H as -> ->. split; reflexivity.
  - intros H1.
    destruct (useEffect_cases s s1 fetches deletes) as [[N _] | [_ U]];
      [congruence|].
    rewrite U, Hp in H. injection H as -> ->. split; reflexivity.
  - destruct (useEffect_cases s s1 fetches deletes) as [[N U] | [N U]];
      rewrite U in H; injection H as -> ->; simpl; split; intros;
      congruence.
Qed.

End Transitions.

(** ** The load and the delete *)

(** The statements of [fetchInvestments] taken alone: it sets
    [loading = true] and issues the request for remote page
    [currentPage - 1] with size 5; the only [setError(null)] is on the
    success path. *)
Lemma load_sets_loading_and_leaves_the_error (s : State) :
  fetchInvestments_request s
  = (setLoading true s, GET_investments (currentPage s - 1) itemsPerPage)
  /\ loading (fst (fetchInvestments_request s)) = true
  /\ error (fst (fetchInvestments_request s)) = error s
  /\ investments (fst (fetchInvestments_request s)) = investments s
  /\ (forall l, exists s',
        fetchInvestments_settle (Responded true (JsonContent l)) s = (Some s', [])
        /\ error s' = None /\ loading s' = false /\ investments s' = l).
Proof.
  repeat match goal with |- _ /\ _ => split end; try reflexivity.
  intros l. eexists. split; [reflexivity|]. repeat split.
Qed.

(** C9, as the code has it.  The load ends in the error state exactly when
    the request is rejected, the status is not a success, or the body is
    not JSON or is the JSON null; a failed load issues no further request.
    A success response whose body is JSON but carries no array under
    [content] is not rejected: the [try] block completes, no error is set
    and no failure is announced. *)
Theorem load_fails_exactly_when_request_or_parsing_fails
  (o : Settled) (s : State) :
  ((exists s', fst (fetchInvestments_settle o s) = Some s' /\ error s' <> None)
   <-> loadFailure o = true)
  /\ (fetchInvestments_try o = Thrown <-> loadFailure o = true)
  /\ existsb isFetch (snd (fetchInvestments_settle o s)) = false
  /\ fetchInvestments_settle (Responded true InvalidJson) s
     = (Some (setLoading false (setError (Some msgLoadError) s)),
        [toast_error msgLoadError])
  /\ fetchInvestments_settle (Responded true JsonWithoutArray) s = (None, []).
Proof.
  split; [|split; [apply loadFailure_Thrown|]].
  - rewrite <- loadFailure_Thrown. unfold fetchInvestments_settle.
    destruct (fetchInvestments_try o) as [[l|]|]; simpl; split.
    + intros [s' [E N]]. injection E as <-. simpl in N. congruence.
    + discriminate.
    + intros [s' [E _]]. discriminate.
    + discriminate.
    + reflexivity.
    + intros _. eexists. split; [reflexivity | discriminate].
  - split; [|split; reflexivity].
    unfold fetchInvestments_settle.
    destruct (fetchInvestments_try o) as [[l|]|]; reflexivity.
Qed.

(** After a successful remote delete the records become the ones captured
    when the delete was requested, without the deleted identifier. *)
Lemma handleDelete_settle_success (s : State) (target : Z)
  (captured : list Investment) (b : Body) :
  handleDelete_settle target captured (Responded true b) s
  = (setInvestments
       (filter (fun investment => negb (id investment =? target)) captured) s,
     [toast_success msgDeleteSuccess]).
Proof. reflexivity. Qed.

(** C6 on two overlapping deletes.  With records 1 and 2 loaded and both
    deletes requested before either settles, the first success leaves
    record 2 and the second success leaves record 1: the second call
    filters the array it captured, so the record already deleted comes
    back.  No request for a page is issued. *)
Theorem second_overlapping_delete_restores_the_first_record :
  exists w1 effs1 w2 effs2,
    run toLowerCaseLatin1 (fst mount)
      (twoDeletesRequested ++ [DeleteSettles 0 deleted204]) = Some (w1, effs1)
    /\ option_map investments (stateOf w1) = Some [ape]
    /\ step toLowerCaseLatin1 w1 (DeleteSettles 0 deleted204) = Some (w2, effs2)
    /\ option_map investments (stateOf w2) = Some [tesouro]
    /\ existsb isFetch effs2 = false.
Proof.
  do 4 eexists.
  split; [vm_compute; reflexivity|].
  split; [reflexivity|].
  split; [vm_compute; reflexivity|].
  split; reflexivity.
Qed.

(** ** Reachable worlds *)

Section Reachability.

Variable toLowerCase : jsstring -> jsstring.

Lemma step_ClickDelete (s : State) fetches deletes target w' effs :
  step toLowerCase (Running s fetches deletes) (ClickDelete target)
  = Some (w', effs) ->
  w' = Running s fetches (deletes ++ [mkPendingDelete target (investments s)])
  /\ effs = [DELETE_investment target].
Proof.
  unfold step. intros H.
  destruct (render toLowerCase s) as [| msg | rows c]; try discriminate.
  destruct (existsb _ rows); [|discriminate].
  injection H as <- <-. split; reflexivity.
Qed.

(** What one step does to the error cell and when it starts a load: a
    load starts only from the table view, where the error is falsy. *)
Lemma step_error (w : World) (e : Event) (w' : World) (effs : list Effect) :
  errorShape w ->
  step toLowerCase w e = Some (w', effs) ->
  errorShape w'
  /\ (existsb isFetch effs = true ->
      exists s', stateOf w' = Some s' /\ loading s' = true /\ error s' = None).
Proof.
  destruct w as [s fetches deletes|]; [|discriminate].
  intros Hinv H.
  assert (Hui : forall s1,
             error s1 = error s ->
             truthy_opt (error s) = false ->
             (w', effs) = useEffect s s1 fetches deletes ->
             errorShape w'
             /\ (existsb isFetch effs = true ->
                 exists s', stateOf w' = Some s' /\ loading s' = true
                            /\ error s' = None)).
  { intros s1 E1 Hf U. apply useEffect_state in U.
    destruct U as [s' [Hs [_ [_ [_ [_ [He Hl]]]]]]].
    assert (En : error s' = None).
    { rewrite He, E1. simpl in Hinv. destruct Hinv as [-> | E]; [reflexivity|].
      rewrite E in Hf. simpl in Hf. discriminate. }
    split.
    - destruct w'; [|exact I]. simpl in Hs. injection Hs as ->.
      left. exact En.
    - intros F. exists s'. auto. }
  destruct e.
  - apply step_filter_change in H; [|reflexivity].
    destruct H as [_ [Hf U]]. eapply Hui; [|exact Hf|exact U]. reflexivity.
  - apply step_filter_change in H; [|reflexivity].
    destruct H as [_ [Hf U]]. eapply Hui; [|exact Hf|exact U]. reflexivity.
  - pose proof H as H0. unfold step in H0.
    destruct (render toLowerCase s) as [| | rows c] eqn:R; try discriminate.
    apply render_TableView in R. destruct R as [_ [Hf _]].
    apply step_ClickPrev in H. destruct H as [_ [_ U]].
    eapply Hui; [|exact Hf|exact U]. reflexivity.
  - pose proof H as H0. unfold step in H0.
    destruct (render toLowerCase s) as [| | rows c] eqn:R; try discriminate.
    apply render_TableView in R. destruct R as [_ [Hf _]].
    apply step_ClickNext in H. destruct H as [_ [_ U]].
    eapply Hui; [|exact Hf|exact U]. reflexivity.
  - apply step_ClickDelete in H. destruct H as [-> ->].
    split; [exact Hinv | discriminate].
  - apply step_FetchSettles in H. destruct H as [_ [-> ->]].
    unfold fetchInvestments_settle.
    destruct (fetchInvestments_try o) as [[l|]|]; simpl;
      (split; [auto | discriminate]).
  - apply step_DeleteSettles in H. destruct H as [d [_ [-> ->]]].
    destruct o as [|[|] b]; simpl; (split; [exact Hinv | discriminate]).
Qed.

Lemma run_errorShape (events : list Event) :
  forall w w' effs,
    errorShape w -> run toLowerCase w events = Some (w', effs) ->
    errorShape w'.
Proof.
  induction events as [|e rest IH]; intros w w' effs Hinv H; simpl in H.
  - injection H as <- _. exact Hinv.
  - destruct (step toLowerCase w e) as [[w1 effs1]|] eqn:S; [|discriminate].
    destruct (run toLowerCase w1 rest) as [[w2 effs2]|] eqn:R; [|discriminate].
    injection H as <- _.
    apply (IH w1 w2 effs2); [|exact R].
    apply (step_error w e w1 effs1 Hinv S).
Qed.

(** In every reachable world, a step that requests a page leaves
    [loading = true] and a null error: no load starts while an error is
    set, since the error view offers no control. *)
Lemma reachable_load_starts_without_error
  (w : World) (e : Event) (w' : World) (effs : list Effect) :
  reachable toLowerCase w ->
  step toLowerCase w e = Some (w', effs) ->
  existsb isFetch effs = true ->
  exists s', stateOf w' = Some s' /\ loading s' = true /\ error s' = None.
Proof.
  intros [events [effs0 R]] S F.
  assert (Hinv : errorShape w).
  { apply (run_errorShape events (fst mount) w effs0); [|exact R].
    left. reflexivity. }
  exact (proj2 (step_error w e w' effs Hinv S) F).
Qed.

End Reachability.

(** ** Concrete runs *)

Lemma pageTwoWorld_reachable : reachable toLowerCaseLatin1 pageTwoWorld.
Proof. exists toPageTwo. eexists. vm_compute. reflexivity. Qed.

(** Scenario B of the specification: the search text "ape" with e
    circumflex, in lower case, matches the name "Ape Centro". *)
Example search_ignores_case :
  matches toLowerCaseLatin1 [] [97; 112; 234]%N ape = true.
Proof. reflexivity. Qed.

(** Scenario A: with the category set, only the first record is visible and
    there is one page. *)
Lemma filter_keeps_exactly_the_passing_records_witness :
  In tesouro (filterInvestments toLowerCaseLatin1 Acoes [] [tesouro; ape])
  /\ ~ In ape (filterInvestments toLowerCaseLatin1 Acoes [] [tesouro; ape])
  /\ pageCount (filterInvestments toLowerCaseLatin1 Acoes [] [tesouro; ape]) = 1
  /\ pageSlice (filterInvestments toLowerCaseLatin1 Acoes [] [tesouro; ape]) 1
     = [tesouro].
Proof.
  pose proof (filter_keeps_exactly_the_passing_records toLowerCaseLatin1
                [tesouro; ape] Acoes []) as [_ [_ [H _]]].
  split; [|split; [|split; reflexivity]].
  - apply H. split; [left; reflexivity|].
    split; [right; reflexivity | left; reflexivity].
  - intros Hin. apply H in Hin. destruct Hin as [_ [[E | E] _]]; discriminate.
Defined.

Lemma pagination_counts_and_slices_witness :
  1 <= 2
  /\ pageCount sixRecords = 2
  /\ pageSlice sixRecords 2 = range sixRecords 5 10
  /\ pageSlice sixRecords 2 = [sample 6 (str "Ether") Criptomoedas].
Proof.
  pose proof (pagination_counts_and_slices sixRecords 2 ltac:(lia)) as H.
  cbv zeta in H. destruct H as [_ [_ [_ [Hs _]]]].
  split; [lia|]. split; [reflexivity|]. split; [exact Hs|].
  rewrite Hs. reflexivity.
Defined.

Lemma controls_rendered_iff_more_than_one_page_witness :
  controlsOf (render toLowerCaseLatin1 (loadedState sixRecords 1)) <> None
  /\ controlsOf (render toLowerCaseLatin1 (loadedState [tesouro; ape] 1)) = None.
Proof.
  split.
  - apply (proj1 (controls_rendered_iff_more_than_one_page toLowerCaseLatin1
                    (loadedState sixRecords 1))).
    repeat split.
  - apply (proj2 (proj2 (controls_rendered_iff_more_than_one_page
                           toLowerCaseLatin1 (loadedState [tesouro; ape] 1)))
             [tesouro; ape] _ eq_refl).
    right. reflexivity.
Defined.

(** From page 2 of two, previous leads to page 1; and once only five
    records are left while the stored page is still 2, the slice is empty. *)
Lemma navigation_is_clamped_and_recomputation_keeps_the_page_witness :
  (exists s', stateOf (fst (useEffect (loadedState sixRecords 2)
                              (onPrevClick (loadedState sixRecords 2)) [] []))
              = Some s' /\ currentPage s' = 1)
  /\ totalPages toLowerCaseLatin1 (loadedState (firstn 5 sixRecords) 2) = 1
  /\ paginatedInvestments toLowerCaseLatin1 (loadedState (firstn 5 sixRecords) 2)
     = [].
Proof.
  split; [|split; [reflexivity|]].
  - apply (proj1 (navigation_is_clamped_and_recomputation_keeps_the_page
                    toLowerCaseLatin1 (loadedState sixRecords 2) [] [])
             _ _ eq_refl).
  - apply (proj2 (proj2 (proj2 (proj2 (proj2 (proj2 (proj2 (proj2 (proj2
            (navigation_is_clamped_and_recomputation_keeps_the_page
               toLowerCaseLatin1 (loadedState (firstn 5 sixRecords) 2)
               [] [])))))))))).
    vm_compute. reflexivity.
Defined.

Lemma failed_load_sets_error_and_keeps_records_witness :
  loadFailure (Responded false JsonNull) = true
  /\ exists s',
       fetchInvestments_settle (Responded false JsonNull)
         (setLoading true (loadedState [tesouro] 1))
       = (Some s', [toast_error msgLoadError])
       /\ investments s' = [tesouro]
       /\ render toLowerCaseLatin1 s' = ErrorView msgLoadError.
Proof.
  split; [reflexivity|].
  destruct (failed_load_sets_error_and_keeps_records toLowerCaseLatin1
              (setLoading true (loadedState [tesouro] 1))
              (Responded false JsonNull) eq_refl)
    as [s' [H1 [_ [_ [_ [H5 [H6 _]]]]]]].
  exists s'. split; [exact H1|]. split; [exact H5 | exact H6].
Defined.

Lemma failed_delete_is_reported_and_changes_nothing_witness :
  deleteFailure Rejected = true
  /\ handleDelete_settle 1 [tesouro; ape] Rejected (loadedState [tesouro; ape] 1)
     = (loadedState [tesouro; ape] 1, [toast_error msgDeleteError]).
Proof.
  split; [reflexivity|].
  apply (proj1 (failed_delete_is_reported_and_changes_nothing toLowerCaseLatin1
                  (loadedState [tesouro; ape] 1) 1 [tesouro; ape] Rejected
                  eq_refl)).
Defined.

Lemma filter_change_fetches_exactly_when_the_page_moves_witness :
  isFilterChange (ChangeSearch (str "e")) = true
  /\ step toLowerCaseLatin1 pageTwoWorld (ChangeSearch (str "e"))
     = Some (Running (setLoading true
                        (applyFilterChange (ChangeSearch (str "e"))
                           (loadedState sixRecords 2))) [0] [],
             [GET_investments 0 itemsPerPage])
  /\ (existsb isFetch [GET_investments 0 itemsPerPage] = true
      <-> currentPage (loadedState sixRecords 2) <> 1).
Proof.
  split; [reflexivity|]. split; [reflexivity|].
  apply (filter_change_fetches_exactly_when_the_page_moves toLowerCaseLatin1
           (loadedState sixRecords 2) [] [] (ChangeSearch (str "e"))
           _ _ eq_refl eq_refl).
Defined.

(** C1 as worded fails: on local page 2, reached from the mount, typing in
    the search box requests remote page 0. *)
Lemma filter_change_on_page_two_fetches :
  ~ filter_change_never_fetches toLowerCaseLatin1.
Proof.
  intros H.
  pose proof (H pageTwoWorld (ChangeSearch (str "e")) _ _
                pageTwoWorld_reachable eq_refl eq_refl) as C.
  discriminate C.
Qed.

(** C9 as worded fails: a success response whose JSON body has no array
    under [content] is malformed, yet the load does not end in the error
    state. *)
Lemma body_without_array_is_not_rejected : ~ load_fails_exactly_when_specified.
Proof.
  intros H.
  destruct (H (Responded true JsonWithoutArray) initialState) as [_ B].
  destruct (B eq_refl) as [s' [E _]]. discriminate E.
Qed.

(** Scenario C of the specification, on six records: on local page 2 the
    only visible record is deleted; the page count drops to 1, the stored
    page stays 2 and the slice is empty. *)
Example stale_page_after_delete :
  exists w effs,
    run toLowerCaseLatin1 (fst mount)
      (toPageTwo ++ [ClickDelete 6; DeleteSettles 0 deleted204]) = Some (w, effs)
    /\ option_map currentPage (stateOf w) = Some 2
    /\ option_map (totalPages toLowerCaseLatin1) (stateOf w) = Some 1
    /\ option_map (paginatedInvestments toLowerCaseLatin1) (stateOf w) = Some [].
Proof.
  do 2 eexists. split; [vm_compute; reflexivity|]. repeat split.
Qed.

(** ** More on slices and pages *)

Lemma Subsequence_nil_l {A : Type} (l : list A) : Subsequence [] l.
Proof. induction l; constructor; assumption. Qed.

Lemma Subsequence_trans {A : Type} (l2 l3 : list A) :
  Subsequence l2 l3 -> forall l1, Subsequence l1 l2 -> Subsequence l1 l3.
Proof.
  induction 1 as [| x out l H IH | x out l H IH]; intros l1 H1.
  - exact H1.
  - apply Subsequence_drop. apply IH. exact H1.
  - inversion H1; subst.
    + apply Subsequence_drop. apply IH. assumption.
    + apply Subsequence_keep. apply IH. assumption.
Qed.

Lemma Subsequence_In {A : Type} (out l : list A) :
  Subsequence out l -> forall x, In x out -> In x l.
Proof.
  induction 1 as [| y out l H IH | y out l H IH]; intros x Hx.
  - exact Hx.
  - right. apply IH. exact Hx.
  - destruct Hx as [-> | Hx]; [left; reflexivity | right; apply IH; exact Hx].
Qed.

Lemma firstn_skipn_Subsequence {A : Type} (l : list A) :
  forall k n, Subsequence (firstn n (skipn k l)) l.
Proof.
  induction l as [|x l IH]; intros k n.
  - destruct k, n; constructor.
  - destruct k as [|k].
    + destruct n as [|n]; simpl.
      * apply Subsequence_nil_l.
      * apply Subsequence_keep. apply (IH 0%nat n).
    + simpl. apply Subsequence_drop. apply IH.
Qed.

Lemma slice_Subsequence {A : Type} (l : list A) (a b : Z) :
  Subsequence (slice l a b) l.
Proof. unfold slice. apply firstn_skipn_Subsequence. Qed.

Lemma pageSlice_length_le (filtered : list Investment) (p : Z) :
  Z.of_nat (length (pageSlice filtered p)) <= itemsPerPage.
Proof.
  unfold pageSlice, slice, itemsPerPage.
  rewrite length_firstn, length_skipn.
  destruct (Z.ltb_spec ((p - 1) * 5) 0), (Z.ltb_spec (p * 5) 0); lia.
Qed.

Lemma firstn_plus {A : Type} (a b : nat) :
  forall l : list A, firstn (a + b) l = firstn a l ++ firstn b (skipn a l).
Proof.
  induction a as [|a IH]; intros l; simpl; [reflexivity|].
  destruct l as [|x l]; simpl.
  - rewrite firstn_nil. reflexivity.
  - rewrite IH. reflexivity.
Qed.

Lemma chunks_concat {A : Type} (l : list A) (n k : nat) :
  concat (map (fun i => range l (i * n) (i * n + n)) (seq 0 k))
  = firstn (k * n) l.
Proof.
  induction k as [|k IH]; [reflexivity|].
  rewrite seq_S, map_app, concat_app, IH. simpl.
  rewrite app_nil_r. unfold range.
  replace (k * n + n - k * n)%nat with n by lia.
  replace (n + k * n)%nat with (k * n + n)%nat by lia.
  symmetry. apply firstn_plus.
Qed.

Lemma pageSlice_chunk (filtered : list Investment) (i : nat) :
  pageSlice filtered (Z.of_nat i + 1) = range filtered (i * 5) (i * 5 + 5).
Proof.
  unfold pageSlice, itemsPerPage. rewrite slice_range by lia.
  f_equal; lia.
Qed.

Lemma pageCount_covers (filtered : list Investment) :
  (length filtered <= Z.to_nat (pageCount filtered) * 5)%nat.
Proof.
  pose proof (Math_ceil_div_bounds (Z.of_nat (length filtered)) itemsPerPage
                ltac:(reflexivity)) as [_ Hc].
  fold (pageCount filtered) in Hc. unfold itemsPerPage in Hc.
  pose proof (pageCount_nonneg filtered). lia.
Qed.

Lemma pageCount_le (l l' : list Investment) :
  (length l <= length l')%nat -> pageCount l <= pageCount l'.
Proof.
  intros H. rewrite !pageCount_eq. apply Z.div_le_mono; lia.
Qed.

(** X1.  The local pages partition the filtered list: the slices of the
    pages 1, ..., [pageCount], one after the other, are the filtered list
    itself, so every filtered record is on exactly one page position. *)
Theorem pages_partition_the_filtered_list (filtered : list Investment) :
  concat (map (pageSlice filtered) (pageNumbers (pageCount filtered)))
  = filtered.
Proof.
  unfold pageNumbers. rewrite map_map.
  rewrite (map_ext _ (fun i => range filtered (i * 5) (i * 5 + 5)))
    by (intros i; apply pageSlice_chunk).
  rewrite chunks_concat. apply firstn_all2. apply pageCount_covers.
Qed.

(** X2.  Every page from 1 to [pageCount] shows at least one record and at
    most five; it shows exactly five unless it is the last one, which shows
    what is left. *)
Theorem page_sizes (filtered : list Investment) (p : Z) :
  1 <= p <= pageCount filtered ->
  Z.of_nat (length (pageSlice filtered p))
  = Z.min itemsPerPage (Z.of_nat (length filtered) - itemsPerPage * (p - 1))
  /\ 1 <= Z.of_nat (length (pageSlice filtered p)) <= itemsPerPage
  /\ (p < pageCount filtered ->
      Z.of_nat (length (pageSlice filtered p)) = itemsPerPage).
Proof.
  intros Hp.
  pose proof (Math_ceil_div_bounds (Z.of_nat (length filtered)) itemsPerPage
                ltac:(reflexivity)) as Hc.
  fold (pageCount filtered) in Hc. unfold itemsPerPage in *.
  assert (E : Z.of_nat (length (pageSlice filtered p))
              = Z.min 5 (Z.of_nat (length filtered) - 5 * (p - 1))).
  { unfold pageSlice, itemsPerPage. rewrite slice_range by lia.
    unfold range. rewrite length_firstn, length_skipn. lia. }
  rewrite E. repeat split; try lia.
Qed.

Lemma page_sizes_witness :
  1 <= 2 <= pageCount sixRecords
  /\ Z.of_nat (length (pageSlice sixRecords 2)) = 1.
Proof.
  split; [vm_compute; split; discriminate|].
  apply (proj1 (page_sizes sixRecords 2 ltac:(vm_compute; split; discriminate))).
Defined.

Lemma filter_filter_and {A : Type} (f g : A -> bool) (l : list A) :
  filter f (filter g l) = filter (fun x => g x && f x) l.
Proof.
  induction l as [|x l IH]; [reflexivity|]. simpl.
  destruct (g x); simpl; [destruct (f x)|]; rewrite IH; reflexivity.
Qed.

Section MoreEngines.

Variable toLowerCase : jsstring -> jsstring.

Lemma filteredInvestments_Subsequence (s : State) :
  Subsequence (filteredInvestments toLowerCase s) (investments s).
Proof. apply filter_Subsequence. Qed.

(** X3.  Whatever the state, also for a page that is zero, negative or past
    the end, the table body shows at most five records, and they are
    records held in memory, in their loaded order. *)
Theorem rows_are_at_most_five_loaded_records (s : State) :
  Z.of_nat (length (paginatedInvestments toLowerCase s)) <= itemsPerPage
  /\ Subsequence (paginatedInvestments toLowerCase s) (investments s)
  /\ (forall rows c,
        render toLowerCase s = TableView rows c ->
        (length rows <= 5)%nat /\ forall r, In r rows -> In r (investments s)).
Proof.
  assert (Hsub : Subsequence (paginatedInvestments toLowerCase s) (investments s)).
  { apply (Subsequence_trans _ _ (filteredInvestments_Subsequence s)).
    apply slice_Subsequence. }
  pose proof (pageSlice_length_le (filteredInvestments toLowerCase s)
                (currentPage s)) as Hlen.
  fold (paginatedInvestments toLowerCase s) in Hlen.
  split; [exact Hlen|]. split; [exact Hsub|].
  intros rows c E. apply render_TableView in E. destruct E as [_ [_ [-> _]]].
  split.
  - unfold itemsPerPage in Hlen. lia.
  - apply Subsequence_In. exact Hsub.
Qed.

Lemma matches_split (category search : jsstring) (x : Investment) :
  matches toLowerCase category search x
  = matches toLowerCase category [] x && matches toLowerCase [] search x.
Proof.
  unfold matches. simpl truthy. cbv iota.
  rewrite andb_true_r. reflexivity.
Qed.

(** X4.  The two filters are independent: filtering by category and search
    together is filtering by search and then by category, or by category
    and then by search; and filtering twice changes nothing. *)
Theorem filters_compose (category search : jsstring) (l : list Investment) :
  filterInvestments toLowerCase category search l
  = filterInvestments toLowerCase category []
      (filterInvestments toLowerCase [] search l)
  /\ filterInvestments toLowerCase category search l
     = filterInvestments toLowerCase [] search
         (filterInvestments toLowerCase category [] l)
  /\ filterInvestments toLowerCase category search
       (filterInvestments toLowerCase category search l)
     = filterInvestments toLowerCase category search l.
Proof.
  unfold filterInvestments. repeat split.
  - rewrite filter_filter_and. apply filter_ext. intros x.
    rewrite (matches_split category search x). apply andb_comm.
  - rewrite filter_filter_and. apply filter_ext. intros x.
    apply matches_split.
  - rewrite filter_filter_and. apply filter_ext. intros x.
    destruct (matches toLowerCase category search x); reflexivity.
Qed.

(** X5.  Filtering never adds pages: the number of local pages is at most
    the number of pages the unfiltered records would fill, and without
    filters it is that number. *)
Theorem filtering_never_adds_pages (s : State) :
  (length (filteredInvestments toLowerCase s) <= length (investments s))%nat
  /\ 0 <= totalPages toLowerCase s <= pageCount (investments s)
  /\ (typeFilter s = [] -> searchQuery s = [] ->
      totalPages toLowerCase s = pageCount (investments s)).
Proof.
  assert (H : (length (filteredInvestments toLowerCase s)
               <= length (investments s))%nat) by apply filter_length_le.
  split; [exact H|]. split.
  - split; [apply pageCount_nonneg | apply pageCount_le; exact H].
  - intros Ht Hq. unfold totalPages, filteredInvestments, filterInvestments.
    rewrite Ht, Hq. rewrite filter_all by reflexivity. reflexivity.
Qed.

End MoreEngines.

(** ** Invariants of the runs *)

Lemma remove_nth_last {A : Type} (l : list A) (x : A) :
  remove_nth (length l) (l ++ [x]) = l.
Proof.
  unfold remove_nth.
  rewrite firstn_app, firstn_all, Nat.sub_diag, app_nil_r.
  rewrite skipn_all2 by (rewrite length_app; simpl; lia).
  apply app_nil_r.
Qed.

Lemma remove_nth_Forall {A : Type} (P : A -> Prop) (n : nat) (l : list A) :
  Forall P l -> Forall P (remove_nth n l).
Proof.
  intros H. unfold remove_nth. rewrite Forall_forall in *.
  intros x Hx. apply H. apply in_app_or in Hx.
  destruct Hx as [Hx | Hx].
  - apply (Subsequence_In _ _ (firstn_skipn_Subsequence l 0 n)). exact Hx.
  - apply (Subsequence_In (firstn (length l) (skipn (S n) l)) l
             (firstn_skipn_Subsequence l (S n) (length l))).
    rewrite firstn_all2 by (rewrite length_skipn; lia). exact Hx.
Qed.

Lemma filter_shorter {A : Type} (f : A -> bool) (l : list A) (x : A) :
  In x l -> f x = false -> (length (filter f l) < length l)%nat.
Proof.
  induction l as [|y l IH]; intros Hin Hf; [contradiction|].
  simpl. pose proof (filter_length_le f l) as Hle.
  destruct Hin as [-> | Hin].
  - rewrite Hf. lia.
  - specialize (IH Hin Hf). destruct (f y); simpl; lia.
Qed.

Section Invariants.

Variable toLowerCase : jsstring -> jsstring.

Lemma run_preserves (P : World -> Prop) (Q : Effect -> Prop) :
  (forall w e w' effs,
      P w -> step toLowerCase w e = Some (w', effs) -> P w' /\ Forall Q effs) ->
  forall events w w' effs,
    P w -> run toLowerCase w events = Some (w', effs) ->
    P w' /\ Forall Q effs.
Proof.
  intros Hstep. induction events as [|e rest IH]; intros w w' effs Hw H;
    simpl in H.
  - injection H as <- <-. split; [exact Hw | constructor].
  - destruct (step toLowerCase w e) as [[w1 effs1]|] eqn:S; [|discriminate].
    destruct (run toLowerCase w1 rest) as [[w2 effs2]|] eqn:R; [|discriminate].
    injection H as <- <-.
    destruct (Hstep w e w1 effs1 Hw S) as [Hw1 Hq1].
    destruct (IH w1 w2 effs2 Hw1 R) as [Hw2 Hq2].
    split; [exact Hw2 | apply Forall_app; split; assumption].
Qed.

Lemma step_settles_effects (s : State) fetches deletes e w' effs :
  step toLowerCase (Running s fetches deletes) e = Some (w', effs) ->
  isFilterChange e = false -> isPageClick e = false ->
  existsb isFetch effs = false
  /\ forall s', stateOf w' = Some s' ->
       currentPage s' = currentPage s /\ typeFilter s' = typeFilter s
       /\ searchQuery s' = searchQuery s.
Proof.
  intros H Hf Hc. destruct e; try discriminate.
  - apply step_ClickDelete in H. destruct H as [-> ->].
    split; [reflexivity|]. intros s' E. injection E as <-. auto.
  - apply step_FetchSettles in H. destruct H as [_ [-> ->]].
    unfold fetchInvestments_settle.
    destruct (fetchInvestments_try o) as [[l|]|]; simpl;
      (split; [reflexivity|]); intros s' E; try discriminate;
      injection E as <-; auto.
  - apply step_DeleteSettles in H. destruct H as [d [_ [-> ->]]].
    destruct o as [|[|] b]; simpl; (split; [reflexivity|]);
      intros s' E; injection E as <-; auto.
Qed.

Lemma useEffect_pagePositive (old s : State) fetches deletes w effs :
  (w, effs) = useEffect old s fetches deletes ->
  1 <= currentPage s ->
  pagePositive w /\ Forall requestInRange effs.
Proof.
  intros E Hp.
  destruct (useEffect_cases old s fetches deletes) as [[_ H] | [_ H]];
    rewrite H in E; injection E as -> ->; simpl.
  - split; [exact Hp | constructor].
  - split; [exact Hp|]. constructor; [|constructor].
    simpl. split; [lia | reflexivity].
Qed.

Lemma step_pagePositive (w : World) (e : Event) (w' : World)
  (effs : list Effect) :
  pagePositive w -> step toLowerCase w e = Some (w', effs) ->
  pagePositive w' /\ Forall requestInRange effs.
Proof.
  destruct w as [s fetches deletes|]; [|discriminate].
  intros Hp H. simpl in Hp.
  destruct (isFilterChange e) eqn:Hf.
  { apply step_filter_change in H; [|exact Hf]. destruct H as [_ [_ U]].
    apply (useEffect_pagePositive _ _ _ _ _ _ U).
    destruct e; try discriminate; simpl; lia. }
  destruct (isPageClick e) eqn:Hc.
  { destruct e; try discriminate.
    - apply step_ClickPrev in H. destruct H as [_ [_ U]].
      apply (useEffect_pagePositive _ _ _ _ _ _ U).
      simpl. unfold prevPage, Math_max. lia.
    - apply step_ClickNext in H. destruct H as [Ht [_ U]].
      apply (useEffect_pagePositive _ _ _ _ _ _ U).
      simpl. unfold nextPage, Math_min. lia. }
  destruct (step_settles_effects s fetches deletes e w' effs H Hf Hc)
    as [Hn Hs].
  split.
  - destruct w' as [s' f' d'|]; [|exact I]. simpl.
    destruct (Hs s' eq_refl) as [-> _]. exact Hp.
  - apply Forall_forall. intros x Hx. destruct x; simpl; auto.
    exfalso. assert (existsb isFetch effs = true)
      by (apply existsb_exists; eexists; split; [exact Hx | reflexivity]).
    congruence.
Qed.

(** X6.  Along every run from the mount the stored page stays at least 1,
    and every request for a page asks for a remote page index that is 0 or
    more, with size 5; the first request is for remote page 0. *)
Theorem requests_ask_for_pages_from_zero
  (events : list Event) (w : World) (effs : list Effect) :
  run toLowerCase (fst mount) events = Some (w, effs) ->
  pagePositive w
  /\ Forall requestInRange effs
  /\ snd mount = [GET_investments 0 itemsPerPage].
Proof.
  intros H.
  destruct (run_preserves pagePositive requestInRange step_pagePositive
              events (fst mount) w effs) as [Hp Hq];
    [simpl; lia | exact H |].
  repeat split; assumption.
Qed.



End Invariants.

(** ** What the user can and cannot do *)

Lemma includes_nil (s : jsstring) : includes s [] = true.
Proof. destruct s; reflexivity. Qed.

Lemma nth_error_last {A : Type} (l : list A) (x : A) :
  nth_error (l ++ [x]) (length l) = Some x.
Proof.
  rewrite nth_error_app2 by lia. rewrite Nat.sub_diag. reflexivity.
Qed.

Section Behaviours.

Variable toLowerCase : jsstring -> jsstring.





(** X9.  A click on previous or next that the page accepts always moves to
    a different page and starts exactly one load, for the remote page one
    below the new page; it leaves the records and the filters as they are. *)
Theorem page_click_always_starts_one_load
  (s : State) (fetches : list Z) (deletes : list PendingDelete)
  (e : Event) (w' : World) (effs : list Effect) :
  isPageClick e = true ->
  step toLowerCase (Running s fetches deletes) e = Some (w', effs) ->
  exists p',
    p' <> currentPage s
    /\ p' = (match e with
             | ClickPrev => Z.max (currentPage s - 1) 1
             | _ => Z.min (currentPage s + 1) (totalPages toLowerCase s)
             end)
    /\ w' = Running (setLoading true (setCurrentPage p' s))
              (fetches ++ [p' - 1]) deletes
    /\ effs = [GET_investments (p' - 1) itemsPerPage].
Proof.
  intros Hc H. destruct e; try discriminate.
  - apply step_ClickPrev in H. destruct H as [_ [Hp U]].
    exists (Z.max (currentPage s - 1) 1).
    assert (Hn : Z.max (currentPage s - 1) 1 <> currentPage s) by lia.
    split; [exact Hn|]. split; [reflexivity|].
    destruct (useEffect_cases s (onPrevClick s) fetches deletes)
      as [[E _] | [_ E]].
    + simpl in E. unfold prevPage, Math_max in E. congruence.
    + rewrite E in U. injection U as -> ->. split; reflexivity.
  - apply step_ClickNext in H. destruct H as [_ [Hp U]].
    exists (Z.min (currentPage s + 1) (totalPages toLowerCase s)).
    assert (Hn : Z.min (currentPage s + 1) (totalPages toLowerCase s)
                 <> currentPage s) by lia.
    split; [exact Hn|]. split; [reflexivity|].
    destruct (useEffect_cases s (onNextClick toLowerCase s) fetches deletes)
      as [[E _] | [_ E]].
    + simpl in E. unfold nextPage, Math_min in E. congruence.
    + rewrite E in U. injection U as -> ->. split; reflexivity.
Qed.

(** X10.  Only a record shown in the table can be deleted, and when its
    delete succeeds before anything else changes the records, the records
    become the previous ones without every record carrying that
    identifier: at least one record goes, the others stay in order, the
    success is announced and no page is requested. *)
Theorem single_delete_removes_the_clicked_record
  (s : State) (fetches : list Z) (deletes : list PendingDelete)
  (target : Z) (w1 : World) (effs1 : list Effect) (b : Body) :
  step toLowerCase (Running s fetches deletes) (ClickDelete target)
  = Some (w1, effs1) ->
  effs1 = [DELETE_investment target]
  /\ stateOf w1 = Some s
  /\ (exists r, In r (paginatedInvestments toLowerCase s) /\ id r = target)
  /\ step toLowerCase w1 (DeleteSettles (length deletes) (Responded true b))
     = Some (Running (setInvestments (without target (investments s)) s)
               fetches deletes,
             [toast_success msgDeleteSuccess])
  /\ (length (without target (investments s)) < length (investments s))%nat
  /\ (forall r, In r (without target (investments s))
                <-> In r (investments s) /\ id r <> target)
  /\ Subsequence (without target (investments s)) (investments s).
Proof.
  intros H. pose proof H as H0. apply step_ClickDelete in H.
  destruct H as [-> ->].
  assert (Hvis : exists r, In r (paginatedInvestments toLowerCase s)
                           /\ id r = target).
  { unfold step in H0.
    destruct (render toLowerCase s) as [| | rows c] eqn:R; try discriminate.
    apply render_TableView in R. destruct R as [_ [_ [-> _]]].
    destruct (existsb _ (paginatedInvestments toLowerCase s)) eqn:E;
      [|discriminate].
    apply existsb_exists in E. destruct E as [r [Hin Hid]].
    exists r. split; [exact Hin | apply Z.eqb_eq; exact Hid]. }
  split; [reflexivity|]. split; [reflexivity|]. split; [exact Hvis|].
  split; [|split; [|split]].
  - unfold step. rewrite nth_error_last. simpl deleteId.
    simpl capturedInvestments. rewrite handleDelete_settle_success.
    rewrite remove_nth_last.
    destruct (render toLowerCase s) as [| | ? ?]; reflexivity.
  - destruct Hvis as [r [Hin Hid]].
    apply (filter_shorter _ _ r).
    + apply (Subsequence_In (paginatedInvestments toLowerCase s)); [|exact Hin].
      apply (Subsequence_trans _ _ (filteredInvestments_Subsequence
                                      toLowerCase s)).
      apply slice_Subsequence.
    + rewrite Hid, Z.eqb_refl. reflexivity.
  - intros r. unfold without. rewrite filter_In, negb_true_iff, Z.eqb_neq.
    tauto.
  - apply filter_Subsequence.
Qed.

End Behaviours.

(** ** A server that honours the page size *)

Lemma pageCount_small (l : list Investment) :
  Z.of_nat (length l) <= itemsPerPage -> pageCount l <= 1.
Proof.
  unfold itemsPerPage. intros H. rewrite pageCount_eq.
  Z.to_euclidean_division_equations. lia.
Qed.

Section HonestServer.

Variable toLowerCase : jsstring -> jsstring.

Lemma onePage_no_controls (s : State) :
  Z.of_nat (length (investments s)) <= itemsPerPage ->
  totalPages toLowerCase s <= 1.
Proof.
  intros H. unfold totalPages.
  apply Z.le_trans with (pageCount (investments s)).
  - apply pageCount_le. apply filter_length_le.
  - apply pageCount_small. exact H.
Qed.

Lemma step_onePage (w : World) (e : Event) (w' : World) (effs : list Effect) :
  onePageWorld w -> withinPageSize e = true ->
  step toLowerCase w e = Some (w', effs) ->
  onePageWorld w' /\ existsb isFetch effs = false /\ isPageClick e = false.
Proof.
  destruct w as [s fetches deletes|]; [|discriminate].
  intros [Hlen [Hcap Hpage]] Hsize H.
  pose proof (onePage_no_controls s Hlen) as Htp.
  destruct e.
  - apply step_filter_change in H; [|reflexivity]. destruct H as [_ [_ U]].
    destruct (useEffect_cases s (applyFilterChange (ChangeSearch value) s)
                fetches deletes) as [[_ E] | [N _]];
      [|simpl in N; congruence].
    rewrite E in U. injection U as -> ->. simpl. auto.
  - apply step_filter_change in H; [|reflexivity]. destruct H as [_ [_ U]].
    destruct (useEffect_cases s (applyFilterChange (ChangeType value) s)
                fetches deletes) as [[_ E] | [N _]];
      [|simpl in N; congruence].
    rewrite E in U. injection U as -> ->. simpl. auto.
  - apply step_ClickPrev in H. destruct H as [H _]. lia.
  - apply step_ClickNext in H. destruct H as [H _]. lia.
  - apply step_ClickDelete in H. destruct H as [-> ->]. simpl.
    repeat split; auto. apply Forall_app. split; [exact Hcap|].
    constructor; [exact Hlen | constructor].
  - apply step_FetchSettles in H. destruct H as [_ [-> ->]].
    destruct o as [|[|] [| | |l]]; simpl; repeat split; auto.
    simpl in Hsize. apply Z.leb_le in Hsize. exact Hsize.
  - apply step_DeleteSettles in H. destruct H as [d [Hd [-> ->]]].
    assert (Hdlen : Z.of_nat (length (capturedInvestments d)) <= itemsPerPage).
    { rewrite Forall_forall in Hcap. apply Hcap.
      apply nth_error_In with n. exact Hd. }
    pose proof (remove_nth_Forall _ n deletes Hcap) as Hrem.
    destruct o as [|[|] b]; simpl; repeat split; auto.
    pose proof (filter_length_le
                  (fun investment => negb (id investment =? deleteId d))
                  (capturedInvestments d)).
    lia.
Qed.

Lemma run_onePage (events : list Event) :
  forall w w' effs,
    onePageWorld w -> forallb withinPageSize events = true ->
    run toLowerCase w events = Some (w', effs) ->
    onePageWorld w' /\ existsb isFetch effs = false
    /\ existsb isPageClick events = false.
Proof.
  induction events as [|e rest IH]; intros w w' effs Hw Hs H; simpl in H.
  - injection H as <- <-. auto.
  - simpl in Hs. apply andb_true_iff in Hs. destruct Hs as [Hs1 Hs2].
    destruct (step toLowerCase w e) as [[w1 effs1]|] eqn:S; [|discriminate].
    destruct (run toLowerCase w1 rest) as [[w2 effs2]|] eqn:R; [|discriminate].
    injection H as <- <-.
    destruct (step_onePage w e w1 effs1 Hw Hs1 S) as [Hw1 [Hf1 Hc1]].
    destruct (IH w1 w2 effs2 Hw1 Hs2 R) as [Hw2 [Hf2 Hc2]].
    split; [exact Hw2|]. split.
    + rewrite existsb_app, Hf1, Hf2. reflexivity.
    + simpl. rewrite Hc1, Hc2. reflexivity.
Qed.

(** X11.  If every page the server sends holds at most five records (the
    size the component asks for), the pagination controls never appear:
    along the whole run the page stays 1, no click on previous or next is
    possible, the table never spans more than one local page and no page
    is requested after the one of the mount. *)
Theorem honest_server_means_a_single_page
  (events : list Event) (w : World) (effs : list Effect) :
  forallb withinPageSize events = true ->
  run toLowerCase (fst mount) events = Some (w, effs) ->
  existsb isPageClick events = false
  /\ existsb isFetch effs = false
  /\ forall s, stateOf w = Some s ->
       currentPage s = 1
       /\ totalPages toLowerCase s <= 1
       /\ controlsOf (render toLowerCase s) = None.
Proof.
  intros Hs H.
  destruct (run_onePage events (fst mount) w effs) as [Hw [Hf Hc]];
    [simpl; repeat split; [unfold itemsPerPage; lia | constructor]
    | exact Hs | exact H |].
  split; [exact Hc|]. split; [exact Hf|].
  intros s E. destruct w as [s0 f0 d0|]; [|discriminate].
  injection E as ->. destruct Hw as [Hlen [_ Hp]].
  pose proof (onePage_no_controls s Hlen) as Htp.
  split; [exact Hp|]. split; [exact Htp|].
  destruct (controlsOf (render toLowerCase s)) as [c|] eqn:Ec; [|reflexivity].
  destruct (render toLowerCase s) as [| | rows c'] eqn:R; try discriminate.
  simpl in Ec. subst c'. apply render_TableView in R.
  destruct R as [_ [_ [_ [Hc' _]]]].
  assert (1 < totalPages toLowerCase s) by (apply Hc'; discriminate). lia.
Qed.

End HonestServer.

(** ** Case folding *)

Section CaseFolding.

Variable toLowerCase : jsstring -> jsstring.

(** X12.  The search does not depend on the case of the query: for a
    lower-casing function that is idempotent and maps the empty string to
    itself, a query and its lower-cased form select the same records. *)
Theorem search_ignores_the_case_of_the_query
  (category search : jsstring) (l : list Investment) :
  (forall x, toLowerCase (toLowerCase x) = toLowerCase x) ->
  toLowerCase [] = [] ->
  filterInvestments toLowerCase category search l
  = filterInvestments toLowerCase category (toLowerCase search) l.
Proof.
  intros Hidem Hnil. unfold filterInvestments. apply filter_ext. intros x.
  unfold matches. f_equal.
  destruct search as [|c search].
  - rewrite Hnil. reflexivity.
  - simpl truthy. cbv iota. rewrite Hidem.
    destruct (toLowerCase (c :: search)) as [|c' lowered]; simpl truthy;
      cbv iota; [apply includes_nil | reflexivity].
Qed.

End CaseFolding.

Lemma lower_unit_idempotent (c : codeunit) :
  lower_unit (lower_unit c) = lower_unit c.
Proof.
  unfold lower_unit.
  destruct ((65 <=? c)%N) eqn:A1, ((c <=? 90)%N) eqn:A2,
           ((192 <=? c)%N) eqn:A3, ((c <=? 222)%N) eqn:A4,
           ((c =? 215)%N) eqn:A5; simpl; rewrite ?A1, ?A2, ?A3, ?A4, ?A5;
    simpl; try reflexivity;
    rewrite ?N.leb_le, ?N.leb_gt, ?N.eqb_eq, ?N.eqb_neq in *; try lia;
    repeat match goal with
           | |- context [(?a <=? ?b)%N] =>
               destruct (N.leb_spec a b); try lia
           | |- context [(?a =? ?b)%N] =>
               destruct (N.eqb_spec a b); try lia
           end; simpl; try reflexivity; try lia.
Qed.

Lemma toLowerCaseLatin1_idempotent (s : jsstring) :
  toLowerCaseLatin1 (toLowerCaseLatin1 s) = toLowerCaseLatin1 s.
Proof.
  unfold toLowerCaseLatin1. rewrite map_map. apply map_ext.
  apply lower_unit_idempotent.
Qed.

(** ** Addresses *)

Lemma str_inj (a b : string) : str a = str b -> a = b.
Proof.
  revert b; induction a as [|c a IH]; intros [|d b] E; simpl in E;
    try discriminate; [reflexivity|].
  injection E as Ec Er. f_equal; [|apply IH; exact Er].
  rewrite <- (ascii_N_embedding c), <- (ascii_N_embedding d), Ec.
  reflexivity.
Qed.

Lemma Some_inj {A : Type} (x y : A) : Some x = Some y -> x = y.
Proof. congruence. Qed.

Lemma Z_to_int_nonnil (n : Z) :
  Z.to_int n <> Decimal.Pos Decimal.Nil /\ Z.to_int n <> Decimal.Neg Decimal.Nil.
Proof.
  destruct n as [|p|p]; simpl; split; try discriminate; intros E;
    injection E as E; exact (DecimalPos.Unsigned.to_uint_nonnil p E).
Qed.

Lemma numberToString_inj (a b : Z) :
  numberToString a = numberToString b -> a = b.
Proof.
  unfold numberToString. intros E. apply str_inj in E.
  apply (f_equal NilZero.int_of_string) in E.
  destruct (Z_to_int_nonnil a) as [Ha1 Ha2].
  destruct (Z_to_int_nonnil b) as [Hb1 Hb2].
  rewrite !NilZero.isi in E by assumption.
  injection E as E. apply (f_equal Z.of_int) in E.
  rewrite !DecimalZ.of_to in E. exact E.
Qed.

(** X13.  For safe integers, the number written into an address
    determines its target: different identifiers give different edit paths
    and different delete addresses, and different page indices give
    different page addresses. *)
Theorem addresses_identify_their_target (a b : Z) :
  isSafeInteger a -> isSafeInteger b ->
  (handleEdit a = handleEdit b -> a = b)
  /\ (requestUrl (DELETE_investment a) = requestUrl (DELETE_investment b) ->
      a = b)
  /\ (forall size,
        requestUrl (GET_investments a size) = requestUrl (GET_investments b size) ->
        a = b).
Proof.
  intros _ _. split; [|split].
  - unfold handleEdit. intros E. apply app_inv_head in E.
    apply numberToString_inj. exact E.
  - unfold requestUrl. intros E. apply Some_inj in E.
    apply app_inv_head in E. apply numberToString_inj. exact E.
  - intros size. unfold requestUrl. intros E. apply Some_inj in E.
    apply app_inv_head in E. apply app_inv_tail in E.
    apply numberToString_inj. exact E.
Qed.

Lemma addresses_identify_their_target_witness :
  isSafeInteger 7 /\ isSafeInteger 12
  /\ handleEdit 7 = str "/investments/edit/7"
  /\ handleEdit 12 = str "/investments/edit/12"
  /\ handleEdit 7 <> handleEdit 12
  /\ requestUrl (DELETE_investment 7) <> requestUrl (DELETE_investment 12)
  /\ requestUrl (GET_investments 7 itemsPerPage)
     <> requestUrl (GET_investments 12 itemsPerPage).
Proof.
  assert (H7 : isSafeInteger 7) by (unfold isSafeInteger; lia).
  assert (H12 : isSafeInteger 12) by (unfold isSafeInteger; lia).
  destruct (addresses_identify_their_target 7 12 H7 H12) as [He [Hd Hg]].
  split; [exact H7|]. split; [exact H12|].
  split; [reflexivity|]. split; [reflexivity|].
  split; [|split]; intros E.
  - apply He in E. discriminate E.
  - apply Hd in E. discriminate E.
  - apply Hg in E. discriminate E.
Defined.

(** ** The registration page *)

Section Registration.

Variable Json : Type.

Lemma stringMin1_spec (field : Register.Field) (v : jsstring) :
  Register.stringMin1 field v
  = match v with
    | [] => [(field, Register.msgRequired)]
    | _ :: _ => []
    end.
Proof.
  unfold Register.stringMin1. destruct v as [|c v]; [reflexivity|].
  destruct (Z.ltb_spec (Z.of_nat (length (c :: v))) 1) as [H|_];
    [|reflexivity].
  simpl length in H. lia.
Qed.

Lemma formSchema_passes (v : Register.FormValues) :
  Register.formSchema v = []
  <-> Register.username v <> [] /\ Register.password v <> [].
Proof.
  unfold Register.formSchema. rewrite !stringMin1_spec.
  destruct (Register.username v) as [|c u], (Register.password v) as [|d q];
    simpl; split; intros H; try discriminate;
    try (destruct H; congruence);
    try (split; discriminate); try reflexivity.
Qed.

(** X14.  However the registration request settles, [isLoading] goes back
    to false and the outcome is written to the console and nowhere else:
    one error entry when the request was rejected, the status was not a
    success or the body was not JSON, one log entry with the parsed body
    otherwise; no further request is sent. *)
Theorem registration_outcome_is_only_logged
  (p : Register.Page) (n : nat) (o : Register.Outcome Json)
  (p' : Register.Page) (out : list (Register.Output Json)) :
  Register.act p (Register.Settles n o) = Some (p', out) ->
  Register.isLoading p' = false
  /\ Register.inFlight p' = remove_nth n (Register.inFlight p)
  /\ exists entry,
       out = [entry]
       /\ Register.isPost entry = false
       /\ Register.isError entry = Register.failed o
       /\ (Register.failed o = true
           <-> o = Register.NoResponse
               \/ (exists body, o = Register.Response false body)
               \/ o = Register.Response true Register.ParseFails)
       /\ (forall data, o = Register.Response true (Register.ParsedAs data) ->
             entry = Register.console_log data).
Proof.
  unfold Register.act. intros H.
  destruct (nth_error (Register.inFlight p) n); [|discriminate].
  injection H as <- <-. split; [reflexivity|]. split; [reflexivity|].
  destruct o as [|[|] [|data]]; simpl; eexists;
    (split; [reflexivity|]); (split; [reflexivity|]);
    (split; [reflexivity|]); split;
    try (intros data' E; congruence);
    try (split; [intros _ | reflexivity]); eauto;
    try (split; [discriminate|]).
  - intros [E | [[body E] | E]]; discriminate.
Qed.

(** X15.  A submit is possible only while no request is in flight.  It
    sends the form, as one request carrying exactly the typed values and
    setting [isLoading], when both fields are non-empty; when a field is
    empty it sends nothing, changes nothing and raises the
    required-field issue on exactly the empty fields. *)
Theorem submit_sends_only_complete_forms
  (p : Register.Page) (v : Register.FormValues)
  (p' : Register.Page) (out : list (Register.Output Json)) :
  Register.act p (Register.Submit v) = Some (p', out) ->
  Register.isLoading p = false
  /\ (Register.username v <> [] /\ Register.password v <> [] ->
      out = [Register.POST_register v]
      /\ p' = {| Register.isLoading := true;
                 Register.inFlight := Register.inFlight p ++ [v] |})
  /\ (Register.username v = [] \/ Register.password v = [] ->
      out = [] /\ p' = p)
  /\ (In (Register.Username, Register.msgRequired) (Register.formSchema v)
      <-> Register.username v = [])
  /\ (In (Register.Password, Register.msgRequired) (Register.formSchema v)
      <-> Register.password v = []).
Proof.
  unfold Register.act. intros H.
  destruct (Register.isLoading p); [discriminate|].
  split; [reflexivity|].
  pose proof (formSchema_passes v) as Hv.
  split; [|split].
  - intros Hok. apply Hv in Hok. rewrite Hok in H.
    injection H as <- <-. split; reflexivity.
  - intros Hbad.
    destruct (Register.formSchema v) as [|i l].
    + destruct Hv as [Hv _]. destruct (Hv eq_refl) as [Hu Hp].
      destruct Hbad; contradiction.
    + injection H as <- <-. split; reflexivity.
  - unfold Register.formSchema. rewrite !stringMin1_spec.
    destruct (Register.username v) as [|c u], (Register.password v) as [|d q];
      simpl; split; split; intros E; try reflexivity; try discriminate;
      try (left; reflexivity); try (right; left; reflexivity);
      try contradiction;
      repeat match goal with
             | H : _ \/ _ |- _ => destruct H
             end; try discriminate; try contradiction.
Qed.

Lemma act_oneInFlight (p : Register.Page) (a : Register.Action Json)
  (p' : Register.Page) (out : list (Register.Output Json)) :
  Register.oneInFlight p -> Register.act p a = Some (p', out) ->
  Register.oneInFlight p' /\ Forall Register.validPost out.
Proof.
  unfold Register.oneInFlight, Register.act. intros Hp H.
  destruct a as [v | n o].
  - destruct (Register.isLoading p) eqn:L; [discriminate|].
    destruct (Register.formSchema v) as [|i l] eqn:E.
    + injection H as <- <-. simpl. rewrite Hp. split.
      * exists v. split; [reflexivity | exact E].
      * constructor; [|constructor]. simpl. apply formSchema_passes. exact E.
    + injection H as <- <-. rewrite L. split; [exact Hp | constructor].
  - destruct (nth_error (Register.inFlight p) n) eqn:En; [|discriminate].
    injection H as <- <-. simpl.
    destruct (Register.isLoading p).
    + destruct Hp as [v [Hv _]]. rewrite Hv in *.
      destruct n as [|n]; [|destruct n; discriminate].
      split; [reflexivity|].
      constructor; [|constructor].
      destruct o as [|[|] [|data]]; exact I.
    + rewrite Hp in En. destruct n; discriminate.
Qed.

(** X16.  On the registration page at most one request is in flight at any
    time, exactly while [isLoading] is set, and every request ever sent
    carries a non-empty username and a non-empty password. *)
Theorem one_registration_at_a_time
  (l : list (Register.Action Json))
  (p : Register.Page) (out : list (Register.Output Json)) :
  Register.acts Register.initialPage l = Some (p, out) ->
  (Register.isLoading p = true <-> length (Register.inFlight p) = 1%nat)
  /\ (Register.isLoading p = false <-> Register.inFlight p = [])
  /\ Forall Register.validPost out.
Proof.
  assert (G : forall l p0 p out,
             Register.oneInFlight p0 ->
             Register.acts p0 l = Some (p, out) ->
             Register.oneInFlight p /\ Forall (@Register.validPost Json) out).
  { clear. induction l as [|a rest IH]; intros p0 p out Hp H; simpl in H.
    - injection H as <- <-. split; [exact Hp | constructor].
    - destruct (Register.act p0 a) as [[p1 out1]|] eqn:A; [|discriminate].
      destruct (Register.acts p1 rest) as [[p2 out2]|] eqn:R; [|discriminate].
      injection H as <- <-.
      destruct (act_oneInFlight p0 a p1 out1 Hp A) as [Hp1 Hq1].
      destruct (IH p1 p2 out2 Hp1 R) as [Hp2 Hq2].
      split; [exact Hp2 | apply Forall_app; split; assumption]. }
  intros H. destruct (G l Register.initialPage p out) as [Hp Hq];
    [reflexivity | exact H |].
  unfold Register.oneInFlight in Hp.
  destruct (Register.isLoading p).
  - destruct Hp as [v [-> _]]. repeat split; auto; discriminate.
  - rewrite Hp. repeat split; auto; discriminate.
Qed.

End Registration.

(** ** More concrete runs *)


Lemma rows_are_at_most_five_loaded_records_witness :
  (length (paginatedInvestments toLowerCaseLatin1 (loadedState sixRecords 1))
   <= 5)%nat.
Proof.
  apply (proj2 (proj2 (rows_are_at_most_five_loaded_records toLowerCaseLatin1
                         (loadedState sixRecords 1))) _ _ eq_refl).
Defined.

Lemma filtering_never_adds_pages_witness :
  totalPages toLowerCaseLatin1 (loadedState sixRecords 1) = pageCount sixRecords.
Proof.
  apply (proj2 (proj2 (filtering_never_adds_pages toLowerCaseLatin1
                         (loadedState sixRecords 1))) eq_refl eq_refl).
Defined.

Lemma requests_ask_for_pages_from_zero_witness :
  run toLowerCaseLatin1 (fst mount) toPageTwo
  = Some (pageTwoWorld, [GET_investments 1 itemsPerPage])
  /\ pagePositive pageTwoWorld
  /\ Forall requestInRange [GET_investments 1 itemsPerPage].
Proof.
  split; [vm_compute; reflexivity|].
  destruct (requests_ask_for_pages_from_zero toLowerCaseLatin1 toPageTwo
              pageTwoWorld [GET_investments 1 itemsPerPage] eq_refl)
    as [H1 [H2 _]].
  split; assumption.
Defined.



Lemma page_click_always_starts_one_load_witness :
  exists p',
    p' <> 1
    /\ p' = Z.min (1 + 1) (totalPages toLowerCaseLatin1 (loadedState sixRecords 1)).
Proof.
  destruct (page_click_always_starts_one_load toLowerCaseLatin1
              (loadedState sixRecords 1) [] [] ClickNext _ _ eq_refl eq_refl)
    as [p' [Hn [Hp _]]].
  exists p'. split; [exact Hn | exact Hp].
Defined.

Lemma single_delete_removes_the_clicked_record_witness :
  (length (without 2 [tesouro; ape]) < length [tesouro; ape])%nat
  /\ without 2 [tesouro; ape] = [tesouro].
Proof.
  split; [|reflexivity].
  apply (single_delete_removes_the_clicked_record toLowerCaseLatin1
           (loadedState [tesouro; ape] 1) [] [] 2 _ _ InvalidJson eq_refl).
Defined.

Lemma honest_server_means_a_single_page_witness :
  forallb withinPageSize smallPageRun = true
  /\ existsb isPageClick smallPageRun = false
  /\ option_map (fun r => existsb isFetch (snd r))
       (run toLowerCaseLatin1 (fst mount) smallPageRun) = Some false.
Proof.
  split; [reflexivity|].
  destruct (run toLowerCaseLatin1 (fst mount) smallPageRun) as [[w effs]|] eqn:R;
    [|vm_compute in R; discriminate R].
  destruct (honest_server_means_a_single_page toLowerCaseLatin1 smallPageRun
              w effs eq_refl R) as [H1 [H2 _]].
  split; [exact H1|]. simpl. rewrite H2. reflexivity.
Defined.

Lemma search_ignores_the_case_of_the_query_witness :
  filterInvestments toLowerCaseLatin1 [] [65; 80; 202]%N [tesouro; ape]
  = filterInvestments toLowerCaseLatin1 [] [97; 112; 234]%N [tesouro; ape]
  /\ filterInvestments toLowerCaseLatin1 [] [97; 112; 234]%N [tesouro; ape]
     = [ape].
Proof.
  split; [|reflexivity].
  apply (search_ignores_the_case_of_the_query toLowerCaseLatin1 []
           [65; 80; 202]%N [tesouro; ape]
           toLowerCaseLatin1_idempotent eq_refl).
Defined.

Lemma registration_outcome_is_only_logged_witness :
  exists entry : Register.Output nat,
    [Register.console_error Register.StatusNotOk] = [entry]
    /\ Register.isPost entry = false
    /\ Register.isError entry = true.
Proof.
  destruct (registration_outcome_is_only_logged nat
              {| Register.isLoading := true; Register.inFlight := [completeForm] |}
              0 (Register.Response false Register.ParseFails) _ _ eq_refl)
    as [_ [_ [entry [H1 [H2 [H3 _]]]]]].
  exists entry. split; [exact H1|]. split; [exact H2 | exact H3].
Defined.

Lemma submit_sends_only_complete_forms_witness :
  Register.act (Json := nat) Register.initialPage
    (Register.Submit formWithoutPassword) = Some (Register.initialPage, [])
  /\ Register.act (Json := nat) Register.initialPage
       (Register.Submit completeForm)
     = Some ({| Register.isLoading := true; Register.inFlight := [completeForm] |},
             [Register.POST_register completeForm])
  /\ In (Register.Password, Register.msgRequired)
        (Register.formSchema formWithoutPassword).
Proof.
  split; [reflexivity|]. split; [reflexivity|].
  apply (proj2 (proj2 (proj2 (proj2
           (submit_sends_only_complete_forms nat Register.initialPage
              formWithoutPassword Register.initialPage [] eq_refl))))).
  reflexivity.
Defined.

Lemma one_registration_at_a_time_witness :
  Forall (Register.validPost (Json := nat))
    [Register.POST_register completeForm;
     Register.console_error Register.FetchRejected;
     Register.POST_register completeForm].
Proof.
  apply (one_registration_at_a_time nat
           [Register.Submit formWithoutPassword; Register.Submit completeForm;
            Register.Settles 0 Register.NoResponse;
            Register.Submit completeForm]
           {| Register.isLoading := true; Register.inFlight := [completeForm] |}
           _ eq_refl).
Defined.

(** ** Frames *)

Section Frames.

Variable toLowerCase : jsstring -> jsstring.

(** X17.  Requesting a delete and the settling of any request leave the
    page and both filters as they are and request no page: only the
    filter inputs and the pagination buttons change them. *)
Theorem settled_requests_keep_filters_and_page
  (s : State) (fetches : list Z) (deletes : list PendingDelete)
  (e : Event) (w' : World) (effs : list Effect) (s' : State) :
  step toLowerCase (Running s fetches deletes) e = Some (w', effs) ->
  isFilterChange e = false ->
  isPageClick e = false ->
  stateOf w' = Some s' ->
  currentPage s' = currentPage s
  /\ typeFilter s' = typeFilter s
  /\ searchQuery s' = searchQuery s
  /\ existsb isFetch effs = false.
Proof.
  intros H Hf Hc Hs.
  destruct (step_settles_effects toLowerCase s fetches deletes e w' effs
              H Hf Hc) as [Hn Hk].
  destruct (Hk s' Hs) as [H1 [H2 H3]]. auto.
Qed.

(** X18.  While a load is in flight the user can do nothing: with
    [loading] set the only events the page accepts are requests settling. *)
Theorem loading_blocks_the_user
  (s : State) (fetches : list Z) (deletes : list PendingDelete)
  (e : Event) (w' : World) (effs : list Effect) :
  loading s = true ->
  step toLowerCase (Running s fetches deletes) e = Some (w', effs) ->
  render toLowerCase s = LoadingView
  /\ ((exists n o, e = FetchSettles n o) \/ (exists n o, e = DeleteSettles n o)).
Proof.
  intros Hl H.
  assert (R : render toLowerCase s = LoadingView)
    by (unfold render; rewrite Hl; reflexivity).
  split; [exact R|].
  unfold step in H. rewrite R in H.
  destruct e; try discriminate; [left | right]; eauto.
Qed.

End Frames.

Lemma settled_requests_keep_filters_and_page_witness :
  currentPage (setInvestments (without 1 sixRecords) erroredState) = 2
  /\ existsb isFetch [toast_success msgDeleteSuccess] = false.
Proof.
  destruct (settled_requests_keep_filters_and_page toLowerCaseLatin1
              erroredState [] [mkPendingDelete 1 sixRecords]
              (DeleteSettles 0 deleted204) _ _
              (setInvestments (without 1 sixRecords) erroredState)
              eq_refl eq_refl eq_refl eq_refl) as [H1 [_ [_ H4]]].
  split; [exact H1 | exact H4].
Defined.

Lemma loading_blocks_the_user_witness :
  render toLowerCaseLatin1 (setLoading true initialState) = LoadingView.
Proof.
  apply (loading_blocks_the_user toLowerCaseLatin1
           (setLoading true initialState) [0] []
           (FetchSettles 0 (ok200 sixRecords)) _ _ eq_refl eq_refl).
Defined.

(** ** The load, as the component runs it *)

Section LoadInvocations.

Variable toLowerCase : jsstring -> jsstring.

(** C8.  On every invocation of the load, at the mount and at every step
    of a run from the mount that issues a page request, the state has
    [loading = true] and a null error when the request goes out; the
    request is the only effect of the step and asks for remote page
    [currentPage - 1] with size 5. *)
Theorem every_load_starts_loading_with_no_error
  (w : World) (e : Event) (w' : World) (effs : list Effect) (page size : Z) :
  reachable toLowerCase w ->
  step toLowerCase w e = Some (w', effs) ->
  In (GET_investments page size) effs ->
  (exists s0,
      mount = (Running s0 [0] [], [GET_investments 0 itemsPerPage])
      /\ loading s0 = true /\ error s0 = None)
  /\ exists s',
       stateOf w' = Some s'
       /\ loading s' = true
       /\ error s' = None
       /\ page = currentPage s' - 1
       /\ size = itemsPerPage
       /\ effs = [GET_investments page size].
Proof.
  intros [events [effs0 R]] S Hin.
  split; [eexists; repeat split|].
  assert (Hinv : errorShape w).
  { apply (run_errorShape toLowerCase events (fst mount) w effs0); [|exact R].
    left. reflexivity. }
  destruct w as [s fetches deletes|]; [|discriminate].
  assert (F : existsb isFetch effs = true)
    by (apply existsb_exists; eexists; split; [exact Hin | reflexivity]).
  assert (Hstart : exists s1,
             error s1 = error s /\ truthy_opt (error s) = false
             /\ (w', effs) = useEffect s s1 fetches deletes).
  { destruct (isFilterChange e) eqn:Hf.
    { pose proof S as S0. apply step_filter_change in S0; [|exact Hf].
      destruct S0 as [_ [Ht U]]. exists (applyFilterChange e s).
      split; [destruct e; try discriminate; reflexivity|]. auto. }
    destruct (isPageClick e) eqn:Hc.
    { assert (Ht : truthy_opt (error s) = false).
      { pose proof S as S0. unfold step in S0.
        destruct (render toLowerCase s) as [| | rows c] eqn:Rd;
          destruct e; try discriminate;
          apply render_TableView in Rd; tauto. }
      destruct e; try discriminate.
      - apply step_ClickPrev in S. destruct S as [_ [_ U]].
        exists (onPrevClick s). auto.
      - apply step_ClickNext in S. destruct S as [_ [_ U]].
        exists (onNextClick toLowerCase s). auto. }
    destruct (step_settles_effects toLowerCase s fetches deletes e w' effs
                S Hf Hc) as [Hn _].
    congruence. }
  destruct Hstart as [s1 [He [Ht U]]].
  assert (En : error s = None).
  { simpl in Hinv. destruct Hinv as [E | E]; [exact E|].
    rewrite E in Ht. discriminate Ht. }
  destruct (useEffect_cases s s1 fetches deletes) as [[_ E] | [_ E]];
    rewrite E in U; injection U as -> ->; [discriminate F|].
  destruct Hin as [Hin | []]. injection Hin as <- <-.
  exists (setLoading true s1). simpl. rewrite He, En.
  repeat split; reflexivity.
Qed.

End LoadInvocations.

Lemma every_load_starts_loading_with_no_error_witness :
  reachable toLowerCaseLatin1 pageTwoWorld
  /\ exists s',
       step toLowerCaseLatin1 pageTwoWorld (ChangeSearch (str "e"))
       = Some (Running s' [0] [], [GET_investments 0 itemsPerPage])
       /\ loading s' = true /\ error s' = None.
Proof.
  split; [exact pageTwoWorld_reachable|].
  destruct (every_load_starts_loading_with_no_error toLowerCaseLatin1
              pageTwoWorld (ChangeSearch (str "e"))
              (Running (setLoading true
                          (applyFilterChange (ChangeSearch (str "e"))
                             (loadedState sixRecords 2))) [0] [])
              [GET_investments 0 itemsPerPage] 0 itemsPerPage
              pageTwoWorld_reachable eq_refl (or_introl eq_refl))
    as [_ [s' [Hs [Hl [He _]]]]].
  exists s'. simpl in Hs. injection Hs as <-.
  split; [reflexivity|]. split; [exact Hl | exact He].
Defined.

Lemma stalePageWorld_reachable : reachable toLowerCaseLatin1 stalePageWorld.
Proof. exists toStalePage. eexists. vm_compute. reflexivity. Qed.

(** C4 as worded fails: on page 4 of 2, reached from the mount, previous is
    enabled and lands on page 3, above the total. *)
Lemma previous_from_a_stale_page_stays_out_of_range :
  ~ page_clicks_stay_in_range toLowerCaseLatin1.
Proof.
  intros H.
  pose proof (H stalePageWorld ClickPrev
                (Running (setLoading true
                            (setCurrentPage 3 (loadedState sixRecords 4)))
                   [2] [])
                [GET_investments 2 itemsPerPage]
                (loadedState sixRecords 4)
                (setLoading true (setCurrentPage 3 (loadedState sixRecords 4)))
                stalePageWorld_reachable eq_refl eq_refl eq_refl eq_refl)
    as [_ C].
  vm_compute in C. apply C. reflexivity.
Qed.
